(** * tpot: the tsh session and directory client

    A shallow embedding of package [tsh] (the [TSH] client: [isLogin],
    [Login], [ListNodes], [Version], [Status], [parseStringToStatus],
    [parseNodesFromString], [NewTSH]) together with the fragments of the Go
    standard library the package calls ([strings], [bufio.Scanner],
    [time.Parse], [time.Time.Before]).

    Go strings are byte strings; they are modelled by [string], whose
    characters are the bytes. *)

From Stdlib Require Import ZArith NArith Ascii String List Bool Lia.
From stdpp Require Import base option list gmap strings.

Local Open Scope Z_scope.

(** ** Bytes used by the package *)

Definition LF : ascii := "010"%char.
Definition CR : ascii := "013"%char.
Definition SP : ascii := " "%char.

(** ** Package [strings] of the Go standard library *)

(** [strings.HasPrefix(s, prefix)]. *)
Fixpoint strings_HasPrefix (s prefix : string) {struct prefix} : bool :=
  match prefix with
  | EmptyString => true
  | String p prefix' =>
      match s with
      | EmptyString => false
      | String c s' => if Ascii.eqb c p then strings_HasPrefix s' prefix' else false
      end
  end.

(** [strings.Contains(s, substr)]. *)
Fixpoint strings_Contains (s substr : string) : bool :=
  if strings_HasPrefix s substr then true
  else match s with
       | EmptyString => false
       | String _ s' => strings_Contains s' substr
       end.

(** [strings.Split(s, sep)] for a one-byte separator, which is what every
    call in the package passes.  The result is never empty: splitting the
    empty string gives one empty piece. *)
Fixpoint strings_Split (s : string) (sep : ascii) : list string :=
  match s with
  | EmptyString => [EmptyString]
  | String c s' =>
      if Ascii.eqb c sep then EmptyString :: strings_Split s' sep
      else match strings_Split s' sep with
           | piece :: pieces => String c piece :: pieces
           | [] => [String c EmptyString]
           end
  end.

(** [strings.TrimPrefix(s, prefix)]. *)
Fixpoint dropBytes (n : nat) (s : string) : string :=
  match n, s with
  | S n', String _ s' => dropBytes n' s'
  | _, _ => s
  end.

Definition strings_TrimPrefix (s prefix : string) : string :=
  if strings_HasPrefix s prefix then dropBytes (String.length prefix) s else s.

(** [strings.Replace(s, old, new, -1)] for a non-empty [old]: every
    non-overlapping occurrence of [old], found left to right, becomes
    [new].  [skip] counts the bytes of an occurrence still to be passed
    over. *)
Fixpoint replaceAll (old new : string) (skip : nat) (s : string) : string :=
  match s with
  | EmptyString => EmptyString
  | String c s' =>
      match skip with
      | S k => replaceAll old new k s'
      | O =>
          if strings_HasPrefix s old
          then new +:+ replaceAll old new (String.length old - 1) s'
          else String c (replaceAll old new O s')
      end
  end.

Definition strings_Replace (s old new : string) : string := replaceAll old new O s.

(** ** Package [config]: the records the client fills

    The package is declared outside the sources at hand; its records have
    the fields the client reads and writes. *)

Record Item := { Hostname : string; Address : string }.

Record Node := { Items : list Item }.

Definition Item_zero : Item := {| Hostname := ""; Address := "" |}.

(** Go's [==] on the struct [config.Item]. *)
Definition Item_eqb (a b : Item) : bool :=
  String.eqb (Hostname a) (Hostname b) && String.eqb (Address a) (Address b).

(** ** [parseNodesFromString] *)

(** The inner loop [for _, s := range lines] with its two locals
    [infoCount] and [node]. *)
Fixpoint scanColumns (lines : list string) (infoCount : nat) (node : Item) : Item :=
  match lines with
  | [] => node
  | s :: rest =>
      if String.eqb s "" then scanColumns rest infoCount node
      else if Nat.eqb infoCount 2 then node
      else
        let node' :=
          if Nat.eqb infoCount 0
          then {| Hostname := s; Address := Address node |}
          else {| Hostname := Hostname node; Address := s |} in
        scanColumns rest (S infoCount) node'
  end.

(** One turn of the outer loop over the lines of the listing. *)
Definition parseNodeLine (nodeList : list Item) (line : string) : list Item :=
  if strings_HasPrefix line "Node" || strings_HasPrefix line "---"
     || strings_HasPrefix line " "
  then nodeList
  else
    let node := scanColumns (strings_Split line SP) 0 Item_zero in
    if Item_eqb node Item_zero then nodeList else nodeList ++ [node].

Definition parseNodesFromString (nodeStr : string) : Node :=
  {| Items := fold_left parseNodeLine (strings_Split nodeStr LF) [] |}.

(** ** [strings.TrimSpace]

    [TrimSpace] removes leading and trailing white space as Unicode defines
    it, reading the bytes as UTF-8.  The white-space runes are the six
    ASCII ones and U+0085, U+00A0, U+1680, U+2000..U+200A, U+2028, U+2029,
    U+202F, U+205F and U+3000, met here through their UTF-8 encodings. *)

Definition byte (c : ascii) : N := N_of_ascii c.

Definition asciiSpace (c : ascii) : bool :=
  let n := byte c in
  ((9 <=? n) && (n <=? 13) || (n =? 32))%N.

(** U+0085 and U+00A0. *)
Definition spaceRune2 (b1 b2 : ascii) : bool :=
  ((byte b1 =? 194) && ((byte b2 =? 133) || (byte b2 =? 160)))%N.

(** U+1680, U+2000..U+200A, U+2028, U+2029, U+202F, U+205F, U+3000. *)
Definition spaceRune3 (b1 b2 b3 : ascii) : bool :=
  let '(x, y, z) := (byte b1, byte b2, byte b3) in
  ((x =? 225) && (y =? 154) && (z =? 128)
   || (x =? 226) && (y =? 128)
      && ((128 <=? z) && (z <=? 138) || (z =? 168) || (z =? 169) || (z =? 175))
   || (x =? 226) && (y =? 129) && (z =? 159)
   || (x =? 227) && (y =? 128) && (z =? 128))%N.

(** [strings.TrimLeftFunc(s, unicode.IsSpace)]. *)
Fixpoint trimLeftSpace (s : string) : string :=
  match s with
  | String b1 s1 =>
      if asciiSpace b1 then trimLeftSpace s1
      else match s1 with
           | String b2 s2 =>
               if spaceRune2 b1 b2 then trimLeftSpace s2
               else match s2 with
                    | String b3 s3 =>
                        if spaceRune3 b1 b2 b3 then trimLeftSpace s3 else s
                    | EmptyString => s
                    end
           | EmptyString => s
           end
  | EmptyString => s
  end.

Fixpoint revOnto (s acc : string) : string :=
  match s with
  | EmptyString => acc
  | String c s' => revOnto s' (String c acc)
  end.

Definition reverse_bytes (s : string) : string := revOnto s EmptyString.

(** The same scan on the reversed string: the bytes of a rune come last
    byte first. *)
Fixpoint trimLeftSpaceRev (r : string) : string :=
  match r with
  | String b1 r1 =>
      if asciiSpace b1 then trimLeftSpaceRev r1
      else match r1 with
           | String b2 r2 =>
               if spaceRune2 b2 b1 then trimLeftSpaceRev r2
               else match r2 with
                    | String b3 r3 =>
                        if spaceRune3 b3 b2 b1 then trimLeftSpaceRev r3 else r
                    | EmptyString => r
                    end
           | EmptyString => r
           end
  | EmptyString => r
  end.

(** [strings.TrimRightFunc(s, unicode.IsSpace)]. *)
Definition trimRightSpace (s : string) : string :=
  reverse_bytes (trimLeftSpaceRev (reverse_bytes s)).

Definition strings_TrimSpace (s : string) : string :=
  trimRightSpace (trimLeftSpace s).

(** ** [bufio.Scanner] with the default [ScanLines] split function *)

(** [dropCR]: one trailing carriage return is removed. *)
Fixpoint dropCR (data : string) : string :=
  match data with
  | EmptyString => EmptyString
  | String c EmptyString => if Ascii.eqb c CR then EmptyString else data
  | String c rest => String c (dropCR rest)
  end.

(** The pieces between line feeds; at the end of input an empty remainder
    is no token. *)
Definition rawLines (text : string) : list string :=
  let pieces := strings_Split text LF in
  if String.eqb (List.last pieces EmptyString) EmptyString
  then List.removelast pieces else pieces.

(** [bufio.MaxScanTokenSize]. *)
Definition MaxScanTokenSize : N := 65536.

(** A line that does not fit in the scanner's buffer ends the scan
    ([Scan] returns false with [ErrTooLong], which [isLogin] never
    inspects). *)
Fixpoint takeFitting (pieces : list string) : list string :=
  match pieces with
  | [] => []
  | p :: rest =>
      if (N.of_nat (String.length p) <? MaxScanTokenSize)%N
      then p :: takeFitting rest else []
  end.

(** The successive values of [scanner.Text()] while [scanner.Scan()] holds. *)
Definition bufio_ScanLines (text : string) : list string :=
  List.map dropCR (takeFitting (rawLines text)).

(** ** Package [time] of the Go standard library *)

(** An instant: seconds and nanoseconds since January 1, year 1,
    00:00:00 UTC, which is the zero value [Time{}]. *)
Record Time := { wall_sec : Z; wall_nsec : Z }.

Definition Time_zero : Time := {| wall_sec := 0; wall_nsec := 0 |}.

(** [t.Before(u)]. *)
Definition Time_Before (t u : Time) : bool :=
  (wall_sec t <? wall_sec u)
  || ((wall_sec t =? wall_sec u) && (wall_nsec t <? wall_nsec u)).

Definition isLeap (year : Z) : bool :=
  (year mod 4 =? 0) && (negb (year mod 100 =? 0) || (year mod 400 =? 0)).

Definition daysIn (month year : Z) : Z :=
  if month =? 2 then (if isLeap year then 29 else 28)
  else if (month =? 4) || (month =? 6) || (month =? 9) || (month =? 11) then 30
  else 31.

(** Days from January 1 of year 1 to January 1 of [year]. *)
Definition daysBeforeYear (year : Z) : Z :=
  let y := year - 1 in
  365 * y + y / 4 - y / 100 + y / 400.

Fixpoint daysBeforeMonth (months : nat) (year : Z) : Z :=
  match months with
  | O => 0
  | S m => daysBeforeMonth m year + daysIn (Z.of_nat months) year
  end.

(** [time.Date(year, month, day, hour, min, sec, nsec, time.UTC)] for
    arguments already in range. *)
Definition time_Date (year month day hour min sec nsec : Z) : Time :=
  let days :=
    daysBeforeYear year + daysBeforeMonth (Z.to_nat (month - 1)) year + (day - 1) in
  {| wall_sec := days * 86400 + hour * 3600 + min * 60 + sec; wall_nsec := nsec |}.

Definition isDigit (c : ascii) : bool := ((48 <=? byte c) && (byte c <=? 57))%N.

Definition digitVal (c : ascii) : Z := Z.of_N (byte c) - 48.

(** [getnum(s, fixed)]: one or two leading digits, exactly two when
    [fixed]. *)
Definition getnum (s : string) (fixed : bool) : option (Z * string) :=
  match s with
  | String c0 s1 =>
      if isDigit c0 then
        match s1 with
        | String c1 s2 =>
            if isDigit c1 then Some (digitVal c0 * 10 + digitVal c1, s2)
            else if fixed then None else Some (digitVal c0, s1)
        | EmptyString => if fixed then None else Some (digitVal c0, s1)
        end
      else None
  | EmptyString => None
  end.

Fixpoint cutspace (s : string) : string :=
  match s with
  | String c s' => if Ascii.eqb c SP then cutspace s' else s
  | EmptyString => s
  end.

(** [skip(value, prefix)]: the literal text of the layout is matched
    against the value, a run of spaces in the layout standing for any run
    of spaces in the value.  [cut] tells that the spaces of the prefix are
    being cut. *)
Fixpoint skip (cut : bool) (value prefix : string) : option string :=
  match prefix with
  | EmptyString => Some value
  | String p prefix' =>
      if Ascii.eqb p SP then
        if cut then skip true value prefix'
        else
          match value with
          | String v _ =>
              if Ascii.eqb v SP then skip true (cutspace value) prefix' else None
          | EmptyString => skip true value prefix'
          end
      else
        match value with
        | String v value' => if Ascii.eqb v p then skip false value' prefix' else None
        | EmptyString => None
        end
  end.

(** Leading digits of a string and what follows them. *)
Fixpoint spanDigits (s : string) : string * string :=
  match s with
  | String c s' =>
      if isDigit c then let '(ds, rest) := spanDigits s' in (String c ds, rest)
      else (EmptyString, s)
  | EmptyString => (EmptyString, EmptyString)
  end.

Fixpoint leadingInt (s : string) (acc : Z) : Z :=
  match s with
  | String c s' => leadingInt s' (acc * 10 + digitVal c)
  | EmptyString => acc
  end.

Fixpoint takeBytes (n : nat) (s : string) : string :=
  match n, s with
  | S n', String c s' => String c (takeBytes n' s')
  | _, _ => EmptyString
  end.

(** The four-digit year of ["2006"]. *)
Definition longYear (value : string) : option (Z * string) :=
  let p := takeBytes 4 value in
  if (String.length p =? 4)%nat && (String.length (fst (spanDigits p)) =? 4)%nat
  then Some (leadingInt p 0, dropBytes 4 value) else None.

(** A fractional second in the value where the layout has none: it is
    read, to nine digits, and passed over. *)
Definition fractionalSecond (value : string) : Z * string :=
  match value with
  | String c0 (String c1 _ as tail) =>
      if (Ascii.eqb c0 "." || Ascii.eqb c0 ",") && isDigit c1 then
        let '(ds, rest) := spanDigits tail in
        let kept := takeBytes 9 ds in
        (leadingInt kept 0 * 10 ^ Z.of_nat (9 - String.length kept), rest)
      else (0, value)
  | _ => (0, value)
  end.

(** The zone ["-0700"]: sign, two digits of hours, two of minutes; the
    offset in seconds east of UTC. *)
Definition numTZ (value : string) : option (Z * string) :=
  match value with
  | String sign (String h0 (String h1 (String m0 (String m1 rest)))) =>
      if isDigit h0 && isDigit h1 && isDigit m0 && isDigit m1 then
        let hr := digitVal h0 * 10 + digitVal h1 in
        let mm := digitVal m0 * 10 + digitVal m1 in
        if (hr >? 24) || (mm >? 60) then None
        else
          let zoneOffset := (hr * 60 + mm) * 60 in
          if Ascii.eqb sign "+" then Some (zoneOffset, rest)
          else if Ascii.eqb sign "-" then Some (- zoneOffset, rest)
          else None
      else None
  | _ => None
  end.

(** The layout [isLogin] passes to [time.Parse]. *)
Definition layout : string := "2006-01-02 15:04:05 -0700 WIB".

(** [time.Parse(layout, value)] for that layout, chunk by chunk: year,
    ["-"], month, ["-"], day, [" "], hour, [":"], minute, [":"], second,
    [" "], numeric zone, and the literal [" WIB"]; nothing may follow.
    [None] stands for any parse error. *)
Definition parseLayout (value : string) : option Time :=
  '(year, value) ← longYear value;
  value ← skip false value "-";
  '(month, value) ← getnum value true;
  value ← skip false value "-";
  '(day, value) ← getnum value true;
  value ← skip false value " ";
  '(hour, value) ← getnum value false;
  value ← skip false value ":";
  '(min, value) ← getnum value true;
  value ← skip false value ":";
  '(sec, value) ← getnum value true;
  let '(nsec, value) := fractionalSecond value in
  value ← skip false value " ";
  '(zoneOffset, value) ← numTZ value;
  value ← skip false value " WIB";
  if negb (String.eqb value "") then None
  else if (month <? 1) || (12 <? month) || (24 <=? hour) || (60 <=? min) || (60 <=? sec)
  then None
  else if (day <? 1) || (daysIn month year <? day) then None
  else
    let t := time_Date year month day hour min sec nsec in
    Some {| wall_sec := wall_sec t - zoneOffset; wall_nsec := wall_nsec t |}.

(** [time.Parse] returns the zero [Time] together with its error. *)
Definition time_Parse (value : string) : Time * bool :=
  match parseLayout value with
  | Some t => (t, true)
  | None => (Time_zero, false)
  end.

(** ** Outcomes, errors and the process boundary *)

(** A Go function either returns or panics. *)
Inductive Outcome (A : Type) : Type :=
  | Returned (a : A)
  | Panicked.

Arguments Returned {A} a.
Arguments Panicked {A}.

(** The [error] values the package produces or passes on. *)
Inductive error : Type :=
  | ErrUnsupportedVersion
  | errors_New (text : string)
  | exec_Error (text : string)
  | url_Error (text : string)
  | version_Error (text : string).

(** One run of an external program: its name and its arguments. *)
Record Invocation := { inv_name : string; inv_args : list string }.

Record cmdResult := { stdOut : string; stdErr : string }.

(** The world outside the client: what a program prints and whether it
    fails, given the runs that came before, and what the clock reads. *)
Record OS := {
  os_run : list Invocation -> Invocation -> cmdResult * option error;
  os_now : list Invocation -> Time
}.

(** Client code threads the log of the programs run so far. *)
Definition M (A : Type) : Type := list Invocation -> Outcome A * list Invocation.

Definition ret {A} (a : A) : M A := fun log => (Returned a, log).

Definition bind {A B} (m : M A) (k : A -> M B) : M B :=
  fun log =>
    match m log with
    | (Returned a, log') => k a log'
    | (Panicked, log') => (Panicked, log')
    end.

Definition panic {A} : M A := fun log => (Panicked, log).

Declare Scope tsh_scope.
Delimit Scope tsh_scope with tsh.
Notation "'do' x <- m ; k" := (bind m (fun x => k))
  (at level 10, x pattern, m at level 100, k at level 200) : tsh_scope.
Local Open Scope tsh_scope.

(** [exec.Command(name, arg...)] followed by [Run()] with both output
    streams captured. *)
Definition exec_Run (os : OS) (name : string) (args : list string)
  : M (cmdResult * option error) :=
  fun log =>
    let inv := {| inv_name := name; inv_args := args |} in
    (Returned (os_run os log inv), log ++ [inv]).

(** The same with the caller's terminal attached: nothing is captured. *)
Definition exec_RunAttached (os : OS) (name : string) (args : list string)
  : M (option error) :=
  do r <- exec_Run os name args; ret (snd r).

Definition time_Now (os : OS) : M Time := fun log => (Returned (os_now os log), log).

(** Interface [CmdExecutor]: a value with a [Run] method. *)
Definition CmdExecutor : Type := M (cmdResult * option error).

(** [Command], the executor backed by a real process. *)
Definition Command (os : OS) (name : string) (arg : list string) : CmdExecutor :=
  exec_Run os name arg.

(** ** Package [config]: proxy and status *)

Record Proxy := {
  proxy_Address : string;
  proxy_AuthConnector : string;
  proxy_UserName : string;
  proxy_TSHPath : string;
  proxy_Node : Node
}.

Record ProxyStatus := {
  LoginAs : string;
  Roles : list string;
  UserLogins : list string
}.

Definition ProxyStatus_zero : ProxyStatus :=
  {| LoginAs := ""; Roles := []; UserLogins := [] |}.

(** ** Versions *)

Record Version := { Major : Z; Minor : Z; Patch : Z }.

(** The order the spec names: major first, then minor, then patch. *)
Inductive Version_lt (a b : Version) : Prop :=
  | lt_major : Major a < Major b -> Version_lt a b
  | lt_minor : Major a = Major b -> Minor a < Minor b -> Version_lt a b
  | lt_patch : Major a = Major b -> Minor a = Minor b -> Patch a < Patch b ->
               Version_lt a b.

Definition Version_le (a b : Version) : Prop := a = b \/ Version_lt a b.

(** Modelled from the spec: method [IsSupported] of [Version], whose file
    is not among the sources.  "[isSupported] returns true iff candidate >=
    minimum under component-wise lexicographic comparison (major first,
    then minor, then patch); equal versions are supported."  The receiver
    is the minimum. *)
Definition IsSupported (v cv : Version) : bool :=
  if Major cv >? Major v then true
  else if Major cv <? Major v then false
  else if Minor cv >? Minor v then true
  else if Minor cv <? Minor v then false
  else Patch cv >=? Patch v.

(** Modelled from the spec: a numeric component "parseable as an
    integer", read as one digit at least and digits only. *)
Definition atoi (s : string) : option Z :=
  match spanDigits s with
  | (String _ _, EmptyString) => Some (leadingInt s 0)
  | _ => None
  end.

(** Modelled from the spec: a version-shaped token, "a leading
    [v<major>.<minor>.<patch>] pattern", read as a leading [v] and at least
    three dot-separated components after it. *)
Definition versionToken (tok : string) : option (string * string * string) :=
  match tok with
  | String c body =>
      if Ascii.eqb c "v" then
        match strings_Split body "." with
        | major :: minor :: patch :: _ => Some (major, minor, patch)
        | _ => None
        end
      else None
  | EmptyString => None
  end.

(** Modelled from the spec: "the first token matching" among the tokens
    of the banner. *)
Fixpoint firstVersionToken (toks : list string) : option (string * string * string) :=
  match toks with
  | [] => None
  | tok :: rest =>
      match versionToken tok with
      | Some c => Some c
      | None => firstVersionToken rest
      end
  end.

(** Modelled from the spec: function [NewVersion] ([parseVersion]), whose
    file is not among the sources.  "Parsing extracts the first token
    matching a leading [v<major>.<minor>.<patch>] pattern from a banner
    that may contain extra trailing build metadata; only the first three
    numeric components are kept -- a fourth component, if present, is
    ignored.  Fails with ParseError when no version-shaped token is found
    or numeric components are not parseable as integers."  Tokens are the
    pieces between spaces. *)
Definition NewVersion (s : string) : Version + error :=
  match firstVersionToken (strings_Split s SP) with
  | None => inr (version_Error "no version found")
  | Some (major, minor, patch) =>
      match atoi major, atoi minor, atoi patch with
      | Some a, Some b, Some c => inl {| Major := a; Minor := b; Patch := c |}
      | _, _, _ => inr (version_Error "version component is not a number")
      end
  end.

(** ** Package [tsh] *)

(** [net/url]: of a parsed URL the client reads the [Host] only. *)
Record url_URL := { Host : string }.

Record TSH := {
  proxy : Proxy;
  userLogin : string;
  dstHost : string;
  (** abstract the exec.Command *)
  cmdExec : string -> list string -> CmdExecutor;
  minVersion : Version
}.

(** tshBinary is the [tsh] binary where we depends *)
Definition tshBinary_const : string := "tsh".

Record Profile := { URL : string; ValidUntil : Time }.

(** [if currentProfile != nil && currentProfile.URL != "" {
       profileMap[currentProfile.URL] = currentProfile }],
    which [isLogin] has inside and after its loop. *)
Definition commitProfile (currentProfile : option Profile)
    (profileMap : gmap string Profile) : gmap string Profile :=
  match currentProfile with
  | Some p =>
      if negb (String.eqb (URL p) "") then <[URL p := p]> profileMap else profileMap
  | None => profileMap
  end.

(** One turn of the loop [for scanner.Scan()] of [isLogin], on the locals
    [currentProfile] (a pointer, [None] when nil) and [profileMap].
    Writing [ValidUntil] through a nil [currentProfile] panics. *)
Definition scanProfileLine (st : option Profile * gmap string Profile)
    (line : string) : Outcome (option Profile * gmap string Profile) :=
  let '(currentProfile, profileMap) := st in
  if strings_Contains line "Profile URL:" then
    let profileMap := commitProfile currentProfile profileMap in
    let line := strings_Replace line ">" "" in
    let line := strings_Replace line "Profile URL:" "" in
    Returned (Some {| URL := strings_TrimSpace line; ValidUntil := Time_zero |},
              profileMap)
  else if strings_Contains line "Valid until:" then
    let line := strings_TrimSpace line in
    let timeString :=
      List.hd EmptyString (strings_Split (strings_TrimPrefix line "Valid until:") "[") in
    let timeString := strings_TrimSpace timeString in
    let validUntil := fst (time_Parse timeString) in
    match currentProfile with
    | Some p => Returned (Some {| URL := URL p; ValidUntil := validUntil |}, profileMap)
    | None => Panicked
    end
  else Returned st.

Fixpoint scanProfiles (lines : list string)
    (st : option Profile * gmap string Profile)
  : Outcome (option Profile * gmap string Profile) :=
  match lines with
  | [] => Returned st
  | line :: rest =>
      match scanProfileLine st line with
      | Returned st' => scanProfiles rest st'
      | Panicked => Panicked
      end
  end.

(** The profiles of a status text: the loop and the commit that follows. *)
Definition parseProfiles (statusText : string) : Outcome (gmap string Profile) :=
  match scanProfiles (bufio_ScanLines statusText) (None, ∅) with
  | Returned (currentProfile, profileMap) =>
      Returned (commitProfile currentProfile profileMap)
  | Panicked => Panicked
  end.

(** [trimSliceString]. *)
Definition trimSliceString (l : list string) : list string :=
  List.map strings_TrimSpace l.

(** One turn of the loop of [parseStringToStatus]. *)
Definition statusLine (res : ProxyStatus) (line : string) : ProxyStatus :=
  match strings_Split line ":" with
  | k :: v :: _ =>
      let key := strings_TrimSpace k in
      if String.eqb key "Logged in as" then
        {| LoginAs := strings_TrimSpace v; Roles := Roles res;
           UserLogins := UserLogins res |}
      else if String.eqb key "Roles" then
        {| LoginAs := LoginAs res;
           Roles := trimSliceString (strings_Split (strings_TrimSpace v) ",");
           UserLogins := UserLogins res |}
      else if String.eqb key "Logins" then
        {| LoginAs := LoginAs res; Roles := Roles res;
           UserLogins := trimSliceString (strings_Split (strings_TrimSpace v) ",") |}
      else res
  | _ => res
  end.

Definition parseStringToStatus (str : string) : ProxyStatus :=
  let str := strings_Replace str ">" "" in
  let lines := strings_Split str LF in
  fold_left statusLine lines ProxyStatus_zero.

(** tshBinary return the location of TSH binary *)
Definition tshBinary (t : TSH) : string :=
  if negb (String.eqb (proxy_TSHPath (proxy t)) "") then proxy_TSHPath (proxy t)
  else tshBinary_const.

(** authFlags return the authentication flags *)
Definition authFlags (t : TSH) : list string :=
  if negb (String.eqb (proxy_AuthConnector (proxy t)) "")
  then ["--auth=" +:+ proxy_AuthConnector (proxy t)]
  else ["--user=" +:+ proxy_UserName (proxy t)].

Section Client.

(** The operating system and Go's [url.Parse], which the client takes
    as it finds them. *)
Variable os : OS.
Variable url_Parse : string -> url_URL + error.

Definition cleanAddress (t : TSH) : string + error :=
  match url_Parse (proxy_Address (proxy t)) with
  | inr err => inr err
  | inl u => inl (Host u)
  end.

Definition getProxyFlags (t : TSH) : list string + error :=
  match cleanAddress t with
  | inr err => inr err
  | inl proxyAddress => inl ["--proxy=" +:+ proxyAddress]
  end.

(** isLogin return true if the user is already login *)
Definition isLogin (t : TSH) : M bool :=
  do r <- cmdExec t (tshBinary t) ["status"];
  let '(res, err) := r in
  match err with
  | Some _ => ret false
  | None =>
      if negb (String.eqb (stdErr res) "") then ret false
      else
        let targetProfile := proxy_Address (proxy t) in
        match parseProfiles (stdOut res) with
        | Panicked => panic
        | Returned profileMap =>
            match profileMap !! targetProfile with
            | None => ret false
            | Some target =>
                do now <- time_Now os;
                ret (Time_Before now (ValidUntil target))
            end
        end
  end.

Definition Login (t : TSH) : M (option error) :=
  do logged <- isLogin t;
  if logged then ret None
  else
    match getProxyFlags t with
    | inr err => ret (Some err)
    | inl args =>
        let args := args ++ authFlags t in
        exec_RunAttached os (tshBinary t) ("login" :: args)
    end.

(** ListNodes get the list nodes from proxy *)
Definition ListNodes (t : TSH) : M (Node * option error) :=
  do err <- Login t;
  match err with
  | Some e => ret ({| Items := [] |}, Some e)
  | None =>
      match getProxyFlags t with
      | inr e => ret ({| Items := [] |}, Some e)
      | inl args =>
          do r <- exec_Run os (tshBinary t) ("ls" :: args);
          let '(out, err) := r in
          match err with
          | Some e => ret ({| Items := [] |}, Some e)
          | None =>
              if negb (String.eqb (stdErr out) "")
              then ret ({| Items := [] |}, Some (errors_New (stdErr out)))
              else ret (parseNodesFromString (stdOut out), None)
          end
      end
  end.

(** Version return the short tsh Version *)
Definition TSH_Version (t : TSH) : M (Version + error) :=
  do r <- exec_Run os (tshBinary t) ["version"];
  let '(res, err) := r in
  match err with
  | Some e => ret (inr e)
  | None =>
      if negb (String.eqb (stdErr res) "") then ret (inr (errors_New (stdErr res)))
      else if String.eqb (stdOut res) "" then ret (inr (errors_New "std out is empty"))
      else ret (NewVersion (stdOut res))
  end.

(** Status return the tsh proxy status
    this method is supported since tsh Version v2.6.1 *)
Definition Status (t : TSH) : M (ProxyStatus + error) :=
  do v <- TSH_Version t;
  match v with
  | inr err => ret (inr err)
  | inl cv =>
      if negb (IsSupported (minVersion t) cv) then ret (inr ErrUnsupportedVersion)
      else
        match getProxyFlags t with
        | inr err => ret (inr err)
        | inl proxyFlags =>
            do r <- exec_Run os (tshBinary t) ("status" :: proxyFlags);
            let '(res, err) := r in
            match err with
            | Some e => ret (inr e)
            | None =>
                if negb (String.eqb (stdErr res) "")
                then ret (inr (errors_New (stdErr res)))
                else if String.eqb (stdOut res) ""
                then ret (inr (errors_New "std out is empty"))
                else ret (inl (parseStringToStatus (stdOut res)))
            end
        end
  end.

(** NewTSH creates a new TSH *)
Definition NewTSH (p : Proxy) : TSH :=
  {| proxy := p;
     userLogin := "";
     dstHost := "";
     cmdExec := Command os;
     (* the minimum version for supporting Status is TSH v2.6.1 *)
     minVersion := {| Major := 2; Minor := 6; Patch := 1 |} |}.

End Client.

(** ** Notions used to state the properties *)

(** What one line of a listing adds to the directory: the body of the
    outer loop of [parseNodesFromString] run on an empty [nodeList]. *)
Definition lineEntries (line : string) : list Item := parseNodeLine [] line.

(** The tokens of a line: its pieces between spaces, the empty ones
    discarded. *)
Definition nonEmptyTokens (line : string) : list string :=
  List.filter (fun s => negb (String.eqb s "")) (strings_Split line SP).

(** The entry made of the first two tokens, further tokens ignored. *)
Definition firstTwo (toks : list string) : list Item :=
  match toks with
  | [] => []
  | [h] => [{| Hostname := h; Address := "" |}]
  | h :: a :: _ => [{| Hostname := h; Address := a |}]
  end.

(** A header, a separator or a continuation line, as [parseNodesFromString]
    tells them. *)
Definition skippedLine (line : string) : bool :=
  strings_HasPrefix line "Node" || strings_HasPrefix line "---"
  || strings_HasPrefix line " ".

Definition TAB : ascii := "009"%char.
Definition NL : string := String LF EmptyString.

(** ** An instance of [url.Parse]

    [net/url] is not part of the package; the client's properties are
    proved for any [url_Parse].  Where one is wanted, this instance follows
    [url.Parse] in what it refuses before it looks at the authority (a
    control byte, a colon opening the text, a colon in the first segment of
    a path without scheme) and in how it cuts a plain
    [scheme://host/path]; it does not check the host, the port or the
    percent escapes. *)

Definition isLetter (c : ascii) : bool :=
  ((97 <=? byte c) && (byte c <=? 122) || (65 <=? byte c) && (byte c <=? 90))%N.

Definition isCTL (c : ascii) : bool := ((byte c <? 32) || (byte c =? 127))%N.

Fixpoint stringContainsCTLByte (s : string) : bool :=
  match s with
  | EmptyString => false
  | String c s' => isCTL c || stringContainsCTLByte s'
  end.

(** The scan of [getScheme]: the scheme is the text before the first
    colon when letters, digits, [+], [-] and [.] alone come before it, a
    letter first. *)
Inductive SchemeScan : Type :=
  | MissingScheme
  | NoScheme
  | Scheme (scheme rest : string).

Fixpoint scanScheme (first : bool) (s : string) : SchemeScan :=
  match s with
  | EmptyString => NoScheme
  | String c s' =>
      let further :=
        match scanScheme false s' with
        | Scheme scheme rest => Scheme (String c scheme) rest
        | _ => NoScheme
        end in
      if isLetter c then further
      else if isDigit c || Ascii.eqb c "+" || Ascii.eqb c "-" || Ascii.eqb c "."
      then (if first then NoScheme else further)
      else if Ascii.eqb c ":"
      then (if first then MissingScheme else Scheme EmptyString s')
      else NoScheme
  end.

(** [getScheme]: [None] is the error "missing protocol scheme"; the scheme
    is empty when the text has none. *)
Definition getScheme (rawURL : string) : option (string * string) :=
  match scanScheme true rawURL with
  | MissingScheme => None
  | NoScheme => Some (EmptyString, rawURL)
  | Scheme scheme rest => Some (scheme, rest)
  end.

Definition url_Parse_go (rawURL : string) : url_URL + error :=
  let u := List.hd EmptyString (strings_Split rawURL "#") in
  if stringContainsCTLByte u
  then inr (url_Error "net/url: invalid control character in URL")
  else
    match getScheme u with
    | None => inr (url_Error "missing protocol scheme")
    | Some (scheme, rest) =>
        let rest := List.hd EmptyString (strings_Split rest "?") in
        if negb (strings_HasPrefix rest "/") && String.eqb scheme ""
           && strings_Contains (List.hd EmptyString (strings_Split rest "/")) ":"
        then inr (url_Error "first path segment in URL cannot contain colon")
        else if (negb (String.eqb scheme "") || negb (strings_HasPrefix rest "///"))
                && strings_HasPrefix rest "//"
        then
          let authority := List.hd EmptyString (strings_Split (dropBytes 2 rest) "/") in
          inl {| Host := List.last (strings_Split authority "@") EmptyString |}
        else inl {| Host := EmptyString |}
    end.

(** ** Scripted worlds

    An operating system whose [tsh] answers by its first argument, each
    answer fixed in advance, and whose clock stands still. *)

Record Script := {
  on_status : cmdResult * option error;
  on_version : cmdResult * option error;
  on_ls : cmdResult * option error;
  on_login : cmdResult * option error;
  clock : Time
}.

Definition silent : cmdResult * option error :=
  ({| stdOut := ""; stdErr := "" |}, None).

Definition prints (out : string) : cmdResult * option error :=
  ({| stdOut := out; stdErr := "" |}, None).

Definition scriptedOS (s : Script) : OS :=
  {| os_run := fun _ inv =>
       match inv_args inv with
       | verb :: _ =>
           if String.eqb verb "status" then on_status s
           else if String.eqb verb "version" then on_version s
           else if String.eqb verb "ls" then on_ls s
           else if String.eqb verb "login" then on_login s
           else silent
       | [] => silent
       end;
     os_now := fun _ => clock s |}.

Definition proxyAt (address : string) : Proxy :=
  {| proxy_Address := address; proxy_AuthConnector := "";
     proxy_UserName := "alice"; proxy_TSHPath := "";
     proxy_Node := {| Items := [] |} |}.

(** The status text of the end-to-end property. *)
Definition status2099 : string :=
  "Profile URL: https://proxy.example.com" +:+ NL
  +:+ "Valid until: 2099-01-01 00:00:00 +0000 WIB" +:+ NL.

(** January 1, 2099, 00:00:00 UTC, and a day of 2024. *)
Definition year2099 : Time := time_Date 2099 1 1 0 0 0 0.
Definition may2024 : Time := time_Date 2024 5 17 9 30 0 0.

(** A world of May 2024 whose [tsh status] prints that text. *)
Definition world2024 : OS :=
  scriptedOS {| on_status := prints status2099; on_version := silent;
                on_ls := silent; on_login := silent; clock := may2024 |}.

(** A status text whose expiry line comes with no profile before it. *)
Definition expiryOnly : string :=
  "Valid until: 2099-01-01 00:00:00 +0000 WIB" +:+ NL.

Definition worldExpiryOnly : OS :=
  scriptedOS {| on_status := prints expiryOnly; on_version := silent;
                on_ls := silent; on_login := silent; clock := may2024 |}.

(** A status text that names a user and an expiry and no profile. *)
Definition statusNoProfile : string :=
  "  Logged in as:  alice" +:+ NL
  +:+ "  Valid until:   2024-05-18 09:30:00 +0700 WIB [valid for 24h0m0s]" +:+ NL.

Definition worldNoProfile : OS :=
  scriptedOS {| on_status := prints statusNoProfile; on_version := silent;
                on_ls := silent; on_login := silent; clock := may2024 |}.

(** A world whose [tsh] is version 2.4.5.1, and one whose [tsh version]
    prints nothing. *)
Definition worldOldTsh : OS :=
  scriptedOS {| on_status := prints status2099;
                on_version := prints "Teleport v2.4.5.1 git:v2.4.5-19-g4901c48-dirty";
                on_ls := silent; on_login := silent; clock := may2024 |}.

Definition worldMuteTsh : OS :=
  scriptedOS {| on_status := prints status2099; on_version := silent;
                on_ls := silent; on_login := silent; clock := may2024 |}.

(** A world with a session open at [https://proxy.example.com] and two
    nodes behind the proxy. *)
Definition listing : string :=
  "Node Name Address        Labels" +:+ NL
  +:+ "--------- -------------- ------" +:+ NL
  +:+ "web-1     10.0.0.7:3022  env=prod" +:+ NL
  +:+ "db-1      10.0.0.9:3022" +:+ NL.

Definition worldTwoNodes : OS :=
  scriptedOS {| on_status := prints status2099; on_version := silent;
                on_ls := prints listing; on_login := silent; clock := may2024 |}.

(** A world with a session open under the address [10.0.0.1:3080], which
    [url.Parse] refuses. *)
Definition statusBareAddress : string :=
  "Profile URL: 10.0.0.1:3080" +:+ NL
  +:+ "Valid until: 2099-01-01 00:00:00 +0000 WIB" +:+ NL.

Definition worldBareAddress : OS :=
  scriptedOS {| on_status := prints statusBareAddress; on_version := silent;
                on_ls := prints listing; on_login := silent; clock := may2024 |}.

(** The invocation [isLogin] makes. *)
Definition statusProbe (t : TSH) : Invocation :=
  {| inv_name := tshBinary t; inv_args := ["status"] |}.

(** The invocation [Version] makes. *)
Definition versionProbe (t : TSH) : Invocation :=
  {| inv_name := tshBinary t; inv_args := ["version"] |}.

(** The invocation [ListNodes] makes for a proxy whose address parses to
    [u]. *)
Definition lsProbe (t : TSH) (u : url_URL) : Invocation :=
  {| inv_name := tshBinary t; inv_args := ["ls"; "--proxy=" +:+ Host u] |}.

(** ** Further notions: listings *)

(** A token that a listing can carry: no space and no line feed in it. *)
Definition cleanToken (s : string) : bool :=
  negb (strings_Contains s " ") && negb (strings_Contains s NL).

(** An entry that a listing can carry on a line of its own: a non-empty
    hostname that does not open like a header or a separator, and clean
    tokens in both fields. *)
Definition listable (e : Item) : bool :=
  negb (String.eqb (Hostname e) "")
  && cleanToken (Hostname e) && cleanToken (Address e)
  && negb (strings_HasPrefix (Hostname e) "Node")
  && negb (strings_HasPrefix (Hostname e) "---").

(** The line of an entry, hostname then address, and the listing of a
    directory, one line per entry. *)
Definition renderLine (e : Item) : string :=
  Hostname e +:+ String SP (Address e).

Fixpoint renderListing (items : list Item) : string :=
  match items with
  | [] => EmptyString
  | e :: rest => renderLine e +:+ String LF (renderListing rest)
  end.

(** ** Further notions: sessions *)

(** Every profile is stored under its own URL, and never under the empty
    one. *)
Definition profilesKeyed (profileMap : gmap string Profile) : Prop :=
  forall (k : string) (p : Profile),
    profileMap !! k = Some p -> URL p = k /\ k <> "".

(** An expiry line is met before any profile line. *)
Fixpoint expiryBeforeProfile (lines : list string) : bool :=
  match lines with
  | [] => false
  | line :: rest =>
      if strings_Contains line "Profile URL:" then false
      else if strings_Contains line "Valid until:" then true
      else expiryBeforeProfile rest
  end.

(** [rest] closes [value]. *)
Definition Suffix (rest value : string) : Prop :=
  exists pre : string, value = pre +:+ rest.

(** A string of [n] bytes [c]. *)
Fixpoint repeatByte (n : nat) (c : ascii) : string :=
  match n with
  | O => EmptyString
  | S n' => String c (repeatByte n' c)
  end.

(** ** Further notions: status lines *)

(** The key of a status line, trimmed, and its value, untrimmed; both
    empty when the line has no colon. *)
Definition keyOf (line : string) : string :=
  match strings_Split line ":" with
  | k :: _ :: _ => strings_TrimSpace k
  | _ => EmptyString
  end.

Definition valueOf (line : string) : string :=
  match strings_Split line ":" with
  | _ :: v :: _ => v
  | _ => EmptyString
  end.

(** ** [SSH] *)

Section Connect.

Variable os : OS.
Variable url_Parse : string -> url_URL + error.

(** [config.Node.LookUpIPAddress], declared outside the sources at hand:
    the address of a host and whether it was found. *)
Variable LookUpIPAddress : Node -> string -> string * bool.

(** SSH run the [tsh ssh] commands *)
Definition SSH (t : TSH) (username host : string) : M (option error) :=
  match getProxyFlags url_Parse t with
  | inr err => ret (Some err)
  | inl args =>
      let args := args ++ authFlags t in
      let '(ipAddress, ok) := LookUpIPAddress (proxy_Node (proxy t)) host in
      if negb ok then ret (Some (errors_New "couldn't find IP address"))
      else
        let args := args ++ ["-l"; username; ipAddress] in
        exec_RunAttached os (tshBinary t) ("ssh" :: args)
  end.

End Connect.

(** The invocations [Login] and [Status] make for a proxy whose address
    parses to [u]. *)
Definition loginProbe (t : TSH) (u : url_URL) : Invocation :=
  {| inv_name := tshBinary t;
     inv_args := "login" :: ("--proxy=" +:+ Host u) :: authFlags t |}.

Definition statusFlagsProbe (t : TSH) (u : url_URL) : Invocation :=
  {| inv_name := tshBinary t; inv_args := ["status"; "--proxy=" +:+ Host u] |}.

(** From [log] to [log'] at most [n] programs were run, each of them the
    [tsh] binary of the client. *)
Definition tshRuns (t : TSH) (n : nat) (log log' : list Invocation) : Prop :=
  exists added : list Invocation,
    log' = log ++ added
    /\ (length added <= n)%nat
    /\ Forall (fun inv => inv_name inv = tshBinary t) added.

(** A computation that runs at most [n] programs, each the [tsh] binary. *)
Definition OnlyTsh {A : Type} (t : TSH) (n : nat) (c : M A) : Prop :=
  forall log : list Invocation, tshRuns t n log (snd (c log)).

(** ** Further scripted worlds *)

(** A world with no session, whose login succeeds. *)
Definition worldLoggedOut : OS :=
  scriptedOS {| on_status := silent; on_version := silent;
                on_ls := silent; on_login := silent; clock := may2024 |}.

(** A world with a session whose listing is refused. *)
Definition worldLsRefused : OS :=
  scriptedOS {| on_status := prints status2099; on_version := silent;
                on_ls := ({| stdOut := "web-1 10.0.0.7:3022";
                             stdErr := "access denied" |}, None);
                on_login := silent; clock := may2024 |}.

(** An instance of [LookUpIPAddress]: the address of the first entry with
    that hostname. *)
Definition lookupFirst (node : Node) (host : string) : string * bool :=
  match List.find (fun e => String.eqb (Hostname e) host) (Items node) with
  | Some e => (Address e, true)
  | None => (EmptyString, false)
  end.

(** A proxy with one node in its directory. *)
Definition proxyOneNode : Proxy :=
  {| proxy_Address := "https://proxy.example.com"; proxy_AuthConnector := "github";
     proxy_UserName := "alice"; proxy_TSHPath := "/opt/tsh";
     proxy_Node := {| Items := [{| Hostname := "web-1"; Address := "10.0.0.7" |}] |} |}.

(** ** The client and its proxy pointer

    In the source the field [proxy] of [TSH] is a pointer, and [NewTSH]
    stores the pointer it is given, nil included.  [TSHPtr] is the struct
    with that pointer, [None] when nil; [withProxy] is the client of a
    struct whose pointer is set. *)

Record TSHPtr := {
  ptr_proxy : option Proxy;
  ptr_userLogin : string;
  ptr_dstHost : string;
  ptr_cmdExec : string -> list string -> CmdExecutor;
  ptr_minVersion : Version
}.

Definition withProxy (r : TSHPtr) (p : Proxy) : TSH :=
  {| proxy := p;
     userLogin := ptr_userLogin r;
     dstHost := ptr_dstHost r;
     cmdExec := ptr_cmdExec r;
     minVersion := ptr_minVersion r |}.

(** [NewTSH] on a pointer. *)
Definition NewTSHPtr (os : OS) (p : option Proxy) : TSHPtr :=
  {| ptr_proxy := p;
     ptr_userLogin := "";
     ptr_dstHost := "";
     ptr_cmdExec := Command os;
     ptr_minVersion := {| Major := 2; Minor := 6; Patch := 1 |} |}.

(** [isLogin] on the struct.  Its first statement,
    [t.cmdExec(t.tshBinary(), "status")], reads [t.proxy.TSHPath] to make
    the arguments of the call: on a nil proxy it panics there, before the
    executor is called. *)
Definition isLoginPtr (os : OS) (r : TSHPtr) : M bool :=
  match ptr_proxy r with
  | None => panic
  | Some p => isLogin os (withProxy r p)
  end.

(** * Properties *)

(** ** Splitting *)

Lemma Split_cons (s : string) (sep : ascii) :
  exists p ps, strings_Split s sep = p :: ps.
Proof.
  destruct s as [|c s]; simpl; [by eexists _, _|].
  destruct (Ascii.eqb c sep); [by eexists _, _|].
  destruct (strings_Split s sep); by eexists _, _.
Qed.

Lemma Split_app (a b : string) (sep : ascii) :
  strings_Split (a +:+ String sep b) sep
  = strings_Split a sep ++ strings_Split b sep.
Proof.
  induction a as [|c a IH]; simpl.
  - by rewrite Ascii.eqb_refl.
  - rewrite IH. destruct (Ascii.eqb c sep); [done|].
    by destruct (Split_cons a sep) as (p & ps & ->).
Qed.

Lemma Contains_byte_cons (c d : ascii) (s : string) :
  strings_Contains (String d s) (String c "")
  = Ascii.eqb d c || strings_Contains s (String c "").
Proof. simpl. by destruct (Ascii.eqb d c). Qed.

Lemma Split_without (s : string) (sep : ascii) :
  strings_Contains s (String sep "") = false -> strings_Split s sep = [s].
Proof.
  induction s as [|c s IH]; [done|].
  rewrite Contains_byte_cons. intros [Hc Hs]%orb_false_elim.
  simpl. rewrite Hc. by rewrite (IH Hs).
Qed.

Lemma Split_first (k rest : string) (sep : ascii) :
  strings_Contains k (String sep "") = false ->
  strings_Split (k +:+ String sep rest) sep = k :: strings_Split rest sep.
Proof. intros Hk. by rewrite Split_app, (Split_without _ _ Hk). Qed.

(** ** The directory parser *)

Lemma parseNodeLine_acc (acc : list Item) (line : string) :
  parseNodeLine acc line = acc ++ lineEntries line.
Proof.
  unfold lineEntries, parseNodeLine.
  destruct (_ || _); [by rewrite app_nil_r|].
  destruct (Item_eqb _ _); [by rewrite app_nil_r|done].
Qed.

Lemma fold_parseNodeLine (ls : list string) (acc : list Item) :
  fold_left parseNodeLine ls acc = acc ++ flat_map lineEntries ls.
Proof.
  revert acc. induction ls as [|l ls IH]; intros acc; simpl.
  - by rewrite app_nil_r.
  - by rewrite IH, parseNodeLine_acc, <- app_assoc.
Qed.

Lemma parseNodes_flat (nodeStr : string) :
  Items (parseNodesFromString nodeStr)
  = flat_map lineEntries (strings_Split nodeStr LF).
Proof. unfold parseNodesFromString. simpl. by rewrite fold_parseNodeLine. Qed.

Lemma scanColumns_full (lines : list string) (node : Item) :
  scanColumns lines 2 node = node.
Proof.
  induction lines as [|s lines IH]; simpl; [done|].
  by destruct (String.eqb s "").
Qed.

Lemma scanColumns_address (lines : list string) (node : Item) :
  scanColumns lines 1 node
  = match List.filter (fun s => negb (String.eqb s "")) lines with
    | [] => node
    | a :: _ => {| Hostname := Hostname node; Address := a |}
    end.
Proof.
  induction lines as [|s lines IH]; simpl; [done|].
  destruct (String.eqb s ""); simpl; [done|].
  by rewrite scanColumns_full.
Qed.

Lemma scanColumns_hostname (lines : list string) :
  scanColumns lines 0 Item_zero
  = match List.filter (fun s => negb (String.eqb s "")) lines with
    | [] => Item_zero
    | [h] => {| Hostname := h; Address := "" |}
    | h :: a :: _ => {| Hostname := h; Address := a |}
    end.
Proof.
  induction lines as [|s lines IH]; simpl; [done|].
  destruct (String.eqb s ""); simpl; [done|].
  rewrite scanColumns_address. simpl.
  by destruct (List.filter _ lines).
Qed.

Lemma filter_head_nonempty (h : string) (lines rest : list string) :
  List.filter (fun s => negb (String.eqb s "")) lines = h :: rest -> h <> "".
Proof.
  intros Hf.
  assert (Hin : In h (List.filter (fun s => negb (String.eqb s "")) lines))
    by (rewrite Hf; by left).
  apply List.filter_In in Hin as [_ Hne].
  apply negb_true_iff, String.eqb_neq in Hne. done.
Qed.

Lemma lineEntries_tokens (line : string) :
  lineEntries line
  = if skippedLine line then [] else firstTwo (nonEmptyTokens line).
Proof.
  unfold lineEntries, parseNodeLine, skippedLine, nonEmptyTokens.
  destruct (_ || _); [done|].
  rewrite scanColumns_hostname.
  destruct (List.filter _ _) as [|h [|a rest]] eqn:Hf; [done| |];
    apply filter_head_nonempty in Hf; apply String.eqb_neq in Hf;
    unfold Item_eqb; simpl; by rewrite Hf.
Qed.

Lemma lineEntries_hostname (line : string) :
  Forall (fun e => Hostname e <> "") (lineEntries line).
Proof.
  rewrite lineEntries_tokens. destruct (skippedLine line); [constructor|].
  unfold nonEmptyTokens.
  destruct (List.filter _ _) as [|h [|a rest]] eqn:Hf; simpl; [constructor| |];
    apply filter_head_nonempty in Hf; by repeat constructor.
Qed.

(** C7, as amended: whatever the listing, its directory is made line by
    line, in order; a line beginning with ["Node"], with ["---"] or with a
    space adds nothing; any other line adds the entry whose hostname is its
    first non-empty space-separated token and whose address is its second,
    further tokens being ignored (and adds nothing when it has no token);
    the line [host1   10.0.0.1] gives the entry (host1, 10.0.0.1). *)
Theorem parseNodesFromString_lines :
  (forall nodeStr : string,
      Items (parseNodesFromString nodeStr)
      = flat_map lineEntries (strings_Split nodeStr LF))
  /\ (forall line : string,
         strings_HasPrefix line "Node" = true
         \/ strings_HasPrefix line "---" = true
         \/ strings_HasPrefix line " " = true ->
         lineEntries line = [])
  /\ (forall line : string,
         strings_HasPrefix line "Node" = false ->
         strings_HasPrefix line "---" = false ->
         strings_HasPrefix line " " = false ->
         lineEntries line = firstTwo (nonEmptyTokens line))
  /\ Items (parseNodesFromString "host1   10.0.0.1")
     = [{| Hostname := "host1"; Address := "10.0.0.1" |}].
Proof.
  split; [exact parseNodes_flat|].
  split; [|split; [|reflexivity]].
  - intros line H. rewrite lineEntries_tokens. unfold skippedLine.
    destruct H as [-> | [-> | ->]]; by rewrite ?orb_true_r.
  - intros line H1 H2 H3. rewrite lineEntries_tokens. unfold skippedLine.
    by rewrite H1, H2, H3.
Qed.

Lemma parseNodesFromString_lines_witness :
  lineEntries "Node                 Address        Labels" = []
  /\ lineEntries "web-1  10.0.0.7:3022  env=prod"
     = [{| Hostname := "web-1"; Address := "10.0.0.7:3022" |}].
Proof.
  destruct parseNodesFromString_lines as (_ & Hskip & Hkeep & _).
  split.
  - apply Hskip. left. reflexivity.
  - rewrite Hkeep; reflexivity.
Defined.

(** C7, as stated, fails on a line that begins with a tab: it begins with
    white space, yet it adds an entry. *)
Lemma parseNodesFromString_tab_line :
  asciiSpace TAB = true
  /\ Items (parseNodesFromString (String TAB "host1 10.0.0.1"))
     = [{| Hostname := String TAB "host1"; Address := "10.0.0.1" |}].
Proof. split; reflexivity. Qed.

(** ** The key/value scan of [parseStringToStatus] *)

Lemma statusLine_no_colon (res : ProxyStatus) (line : string) :
  strings_Contains line ":" = false -> statusLine res line = res.
Proof. intros H. unfold statusLine. by rewrite (Split_without _ _ H). Qed.

Lemma statusLine_key_value (res : ProxyStatus) (k v tail : string) :
  strings_Contains k ":" = false ->
  strings_Contains v ":" = false ->
  strings_Split (k +:+ String ":" (v +:+ String ":" tail)) ":"
  = k :: v :: strings_Split tail ":"
  /\ strings_Split (k +:+ String ":" v) ":" = [k; v].
Proof.
  intros Hk Hv. split.
  - by rewrite (Split_first _ _ _ Hk), (Split_first _ _ _ Hv).
  - by rewrite (Split_first _ _ _ Hk), (Split_without _ _ Hv).
Qed.

(** C10: the scan runs [statusLine] over the lines of the text, its [>]
    removed.  A line without a colon leaves the status as it is; so does a
    line whose key, the piece before the first colon trimmed, is none of
    the three known ones.  For a known key, only the piece between the
    first and the second colon is the value: what follows a second colon
    changes nothing, and the stored field is made of that piece alone. *)
Theorem parseStringToStatus_colons :
  (forall str : string,
      parseStringToStatus str
      = fold_left statusLine (strings_Split (strings_Replace str ">" "") LF)
                  ProxyStatus_zero)
  /\ (forall (res : ProxyStatus) (line : string),
         strings_Contains line ":" = false -> statusLine res line = res)
  /\ (forall (res : ProxyStatus) (k rest : string),
         strings_Contains k ":" = false ->
         strings_TrimSpace k <> "Logged in as" ->
         strings_TrimSpace k <> "Roles" ->
         strings_TrimSpace k <> "Logins" ->
         statusLine res (k +:+ String ":" rest) = res)
  /\ (forall (res : ProxyStatus) (k v tail : string),
         strings_Contains k ":" = false ->
         strings_Contains v ":" = false ->
         statusLine res (k +:+ String ":" (v +:+ String ":" tail))
         = statusLine res (k +:+ String ":" v))
  /\ (forall (res : ProxyStatus) (k v tail : string),
         strings_Contains k ":" = false ->
         strings_Contains v ":" = false ->
         let res' := statusLine res (k +:+ String ":" (v +:+ String ":" tail)) in
         (strings_TrimSpace k = "Logged in as" ->
          LoginAs res' = strings_TrimSpace v)
         /\ (strings_TrimSpace k = "Roles" ->
             Roles res'
             = trimSliceString (strings_Split (strings_TrimSpace v) ","))
         /\ (strings_TrimSpace k = "Logins" ->
             UserLogins res'
             = trimSliceString (strings_Split (strings_TrimSpace v) ","))).
Proof.
  split; [reflexivity|].
  split; [exact statusLine_no_colon|].
  split; [|split].
  - intros res k rest Hk H1 H2 H3. unfold statusLine.
    rewrite (Split_first _ _ _ Hk).
    destruct (Split_cons rest ":") as (v & tl & ->).
    apply String.eqb_neq in H1, H2, H3. by rewrite H1, H2, H3.
  - intros res k v tail Hk Hv.
    destruct (statusLine_key_value res k v tail Hk Hv) as [E1 E2].
    unfold statusLine. by rewrite E1, E2.
  - intros res k v tail Hk Hv res'. subst res'.
    destruct (statusLine_key_value res k v tail Hk Hv) as [E1 _].
    unfold statusLine. rewrite E1.
    split; [|split]; intros ->; reflexivity.
Qed.

Lemma parseStringToStatus_colons_witness :
  statusLine ProxyStatus_zero "no colon here" = ProxyStatus_zero
  /\ statusLine ProxyStatus_zero "  Cluster:  main" = ProxyStatus_zero
  /\ statusLine ProxyStatus_zero "  Logins: root, ops:x, dev"
     = statusLine ProxyStatus_zero "  Logins: root, ops"
  /\ LoginAs (statusLine ProxyStatus_zero "Logged in as: bob:builder") = "bob"
  /\ Roles (statusLine ProxyStatus_zero "Roles: admin, role:dev:x") = ["admin"; "role"]
  /\ UserLogins (statusLine ProxyStatus_zero "  Logins: root, ops:x, dev")
     = ["root"; "ops"].
Proof.
  destruct parseStringToStatus_colons as (_ & Hnone & Hkey & Hcut & Hval).
  split; [by apply Hnone|].
  split; [by apply (Hkey ProxyStatus_zero "  Cluster" "  main")|].
  split; [by apply (Hcut ProxyStatus_zero "  Logins" " root, ops" "x, dev")|].
  split; [|split].
  - by apply (Hval ProxyStatus_zero "Logged in as" " bob" "builder").
  - by apply (Hval ProxyStatus_zero "Roles" " admin, role" "dev:x").
  - by apply (Hval ProxyStatus_zero "  Logins" " root, ops" "x, dev").
Defined.

(** ** Versions *)

Lemma IsSupported_iff (m c : Version) : IsSupported m c = true <-> Version_le m c.
Proof.
  unfold IsSupported, Version_le. destruct m as [a1 b1 c1], c as [a2 b2 c2]; simpl.
  rewrite !Z.gtb_ltb, Z.geb_leb.
  destruct (Z.ltb_spec a1 a2).
  { split; [intros _; right; by apply lt_major|done]. }
  destruct (Z.ltb_spec a2 a1).
  { split; [done|]. intros [[=] | [ | | ]]; simpl in *; lia. }
  destruct (Z.ltb_spec b1 b2).
  { split; [intros _; right; apply lt_minor; simpl; lia|done]. }
  destruct (Z.ltb_spec b2 b1).
  { split; [done|]. intros [[=] | [ | | ]]; simpl in *; lia. }
  destruct (Z.leb_spec c1 c2).
  - split; [intros _|done].
    destruct (Z.eq_dec c1 c2) as [-> | Hne].
    + left. f_equal; lia.
    + right. apply lt_patch; simpl; lia.
  - split; [done|]. intros [[=] | [ | | ]]; simpl in *; lia.
Qed.

(** C6: [IsSupported], with the minimum as receiver, holds of a candidate
    exactly when the candidate is at least the minimum in the order that
    compares major first, then minor, then patch, equal versions being
    supported; 2.6.0 is not supported by 2.6.1, while 2.6.1 and 3.0.0
    are. *)
Theorem IsSupported_lexicographic :
  (forall m c : Version, IsSupported m c = true <-> Version_le m c)
  /\ IsSupported {| Major := 2; Minor := 6; Patch := 1 |}
                 {| Major := 2; Minor := 6; Patch := 0 |} = false
  /\ IsSupported {| Major := 2; Minor := 6; Patch := 1 |}
                 {| Major := 2; Minor := 6; Patch := 1 |} = true
  /\ IsSupported {| Major := 2; Minor := 6; Patch := 1 |}
                 {| Major := 3; Minor := 0; Patch := 0 |} = true.
Proof. split; [exact IsSupported_iff|]. repeat split. Qed.

Lemma Contains_byte_app (a b : string) (c : ascii) :
  strings_Contains (a +:+ b) (String c "")
  = strings_Contains a (String c "") || strings_Contains b (String c "").
Proof.
  induction a as [|d a IH].
  - simpl. by destruct b.
  - change (String d a +:+ b) with (String d (a +:+ b)).
    rewrite !Contains_byte_cons, IH. by rewrite orb_assoc.
Qed.

Lemma spanDigits_spec (s : string) :
  s = fst (spanDigits s) +:+ snd (spanDigits s)
  /\ forall c : ascii,
       isDigit c = false -> strings_Contains (fst (spanDigits s)) (String c "") = false.
Proof.
  induction s as [|d s [IH1 IH2]]; simpl; [split; [done|by intros c _]|].
  destruct (isDigit d) eqn:Hd; [|split; [done|by intros c _]].
  destruct (spanDigits s) as [ds rest]; simpl in *.
  split.
  - change (String d ds +:+ rest) with (String d (ds +:+ rest)). by f_equal.
  - intros c Hc. rewrite (IH2 c Hc).
    assert (Hdc : Ascii.eqb d c = false)
      by (apply Ascii.eqb_neq; intros ->; congruence).
    by rewrite Hdc.
Qed.

Lemma atoi_without (d : string) (a : Z) (c : ascii) :
  atoi d = Some a -> isDigit c = false ->
  strings_Contains d (String c "") = false.
Proof.
  unfold atoi. intros Ha Hc.
  destruct (spanDigits_spec d) as [Hd Hno].
  destruct (spanDigits d) as [ds rest]; simpl in *.
  destruct ds as [|x ds]; [done|]. destruct rest; [|done].
  rewrite Hd. rewrite Contains_byte_app, (Hno c Hc). done.
Qed.

Lemma append_cons (x : ascii) (a b : string) :
  String x a +:+ b = String x (a +:+ b).
Proof. reflexivity. Qed.

Lemma append_assoc (a b c : string) : (a +:+ b) +:+ c = a +:+ (b +:+ c).
Proof.
  induction a as [|x a IH]; [done|].
  rewrite !append_cons. by f_equal.
Qed.

Lemma versionToken_four (da db dc ext : string) (a b c : Z) :
  atoi da = Some a -> atoi db = Some b -> atoi dc = Some c ->
  versionToken (String "v" (da +:+ String "." (db +:+ String "." (dc +:+ String "." ext))))
  = Some (da, db, dc).
Proof.
  intros Ha Hb Hc. unfold versionToken.
  change (Ascii.eqb "v" "v") with true. cbv iota.
  rewrite (Split_first da), (Split_first db), (Split_first dc)
    by (eapply atoi_without; [eassumption|reflexivity]).
  reflexivity.
Qed.

(** C4: from a banner whose version token has four numeric components,
    [NewVersion] keeps the first three as major, minor and patch, whatever
    the fourth is and whatever follows the token; the banner of the Go doc
    comment gives 2.4.5. *)
Theorem NewVersion_fourth_ignored :
  (forall (da db dc ext rest : string) (a b c : Z),
      atoi da = Some a -> atoi db = Some b -> atoi dc = Some c ->
      strings_Contains ext " " = false ->
      NewVersion ("Teleport v" +:+ da +:+ "." +:+ db +:+ "." +:+ dc +:+ "."
                  +:+ ext +:+ " " +:+ rest)
      = inl {| Major := a; Minor := b; Patch := c |})
  /\ NewVersion "Teleport v2.4.5.1 git:v2.4.5-19-g4901c48-dirty"
     = inl {| Major := 2; Minor := 4; Patch := 5 |}.
Proof.
  split; [|reflexivity].
  intros da db dc ext rest a b c Ha Hb Hc Hext.
  set (tok := String "v" (da +:+ String "." (db +:+ String "." (dc +:+ String "." ext)))).
  assert (Htok : strings_Contains tok " " = false).
  { unfold tok. rewrite Contains_byte_cons.
    rewrite Contains_byte_app, Contains_byte_cons.
    rewrite Contains_byte_app, Contains_byte_cons.
    rewrite Contains_byte_app, Contains_byte_cons.
    rewrite (atoi_without da a " " Ha eq_refl), (atoi_without db b " " Hb eq_refl),
      (atoi_without dc c " " Hc eq_refl), Hext.
    reflexivity. }
  assert (Hbanner :
    "Teleport v" +:+ da +:+ "." +:+ db +:+ "." +:+ dc +:+ "." +:+ ext +:+ " " +:+ rest
    = "Teleport" +:+ String SP (tok +:+ String SP rest)).
  { unfold tok. repeat (rewrite append_cons || rewrite append_assoc).
    reflexivity. }
  rewrite Hbanner. unfold NewVersion.
  rewrite (Split_first "Teleport") by reflexivity.
  rewrite (Split_first tok) by exact Htok.
  cbn [firstVersionToken].
  change (versionToken "Teleport") with (@None (string * string * string)).
  cbv iota. unfold tok. rewrite (versionToken_four da db dc ext a b c Ha Hb Hc).
  by rewrite Ha, Hb, Hc.
Qed.

Lemma NewVersion_fourth_ignored_witness :
  NewVersion "Teleport v13.4.26.7-rc1 git:api/v13.4.26-0-g502b3ac go1.20.14"
  = inl {| Major := 13; Minor := 4; Patch := 26 |}.
Proof.
  destruct NewVersion_fourth_ignored as [H _].
  apply (H "13" "4" "26" "7-rc1" "git:api/v13.4.26-0-g502b3ac go1.20.14" 13 4 26);
    reflexivity.
Defined.

(** ** Session validity: [isLogin] *)

(** Once a profile is in progress the scan cannot panic, and a profile
    stays in progress. *)
Lemma scanProfiles_from_profile (lines : list string) (p : Profile)
    (profileMap : gmap string Profile) :
  exists p' profileMap',
    scanProfiles lines (Some p, profileMap) = Returned (Some p', profileMap').
Proof.
  revert p profileMap. induction lines as [|line lines IH]; intros p profileMap.
  - by eexists _, _.
  - simpl. destruct (strings_Contains line "Profile URL:"); [apply IH|].
    destruct (strings_Contains line "Valid until:"); apply IH.
Qed.

(** A timestamp that does not parse leaves the expiry of the profile in
    progress at the zero time, and the scan goes on. *)
Lemma scanProfileLine_bad_timestamp (p : Profile)
    (profileMap : gmap string Profile) (line : string) :
  strings_Contains line "Profile URL:" = false ->
  strings_Contains line "Valid until:" = true ->
  parseLayout
    (strings_TrimSpace
       (List.hd EmptyString
          (strings_Split
             (strings_TrimPrefix (strings_TrimSpace line) "Valid until:") "[")))
  = None ->
  scanProfileLine (Some p, profileMap) line
  = Returned (Some {| URL := URL p; ValidUntil := Time_zero |}, profileMap).
Proof.
  intros H1 H2 H3. unfold scanProfileLine, time_Parse.
  by rewrite H1, H2, H3.
Qed.

(** An expiry left at the zero time is past for every clock reading from
    year 1 on. *)
Lemma Time_zero_expired (now : Time) :
  0 <= wall_sec now -> 0 <= wall_nsec now -> Time_Before now Time_zero = false.
Proof.
  intros Hs Hn. unfold Time_Before, Time_zero. simpl.
  destruct (Z.ltb_spec (wall_sec now) 0); [lia|].
  destruct (Z.ltb_spec (wall_nsec now) 0); [lia|].
  by rewrite andb_false_r.
Qed.

Section Session.

Variable os : OS.

(** [isLogin] returns true exactly when the executor returned without
    error and with an empty error stream, the scan of its output ran to
    its end, the profiles have an entry under the very address of the
    proxy, and that entry expires after the time read from the clock. *)
Lemma isLogin_true (t : TSH) (log log' : list Invocation) :
  isLogin os t log = (Returned true, log') <->
  exists (res : cmdResult) (profileMap : gmap string Profile) (target : Profile),
    cmdExec t (tshBinary t) ["status"] log = (Returned (res, None), log')
    /\ stdErr res = ""
    /\ parseProfiles (stdOut res) = Returned profileMap
    /\ profileMap !! proxy_Address (proxy t) = Some target
    /\ Time_Before (os_now os log') (ValidUntil target) = true.
Proof.
  unfold isLogin, bind, ret, panic, time_Now.
  destruct (cmdExec t (tshBinary t) ["status"] log) as [[[res [e|]]|] log1];
    try (split; [done|by intros (? & ? & ? & [=] & _)]).
  destruct (String.eqb_spec (stdErr res) "") as [Herr|Herr]; simpl.
  2: { split; [done|]. intros (? & ? & ? & [= <- <-] & ? & _). done. }
  destruct (parseProfiles (stdOut res)) as [profileMap|] eqn:Hscan.
  2: { split; [done|]. intros (? & ? & ? & [= <- <-] & _ & ? & _). congruence. }
  destruct (profileMap !! proxy_Address (proxy t)) as [target|] eqn:Hlook.
  2: { split; [done|].
       intros (? & ? & ? & [= <- <-] & _ & ? & ? & _). congruence. }
  split.
  - intros [= Hb <-]. by exists res, profileMap, target.
  - intros (? & ? & target' & [= <- <-] & _ & Hs & Hl & Hb).
    assert (target' = target) as -> by congruence. by rewrite Hb.
Qed.

(** When the scan of the output runs to its end, [isLogin] returns, and
    returns false in every case but the one above. *)
Lemma isLogin_returns (t : TSH) (log log1 : list Invocation)
    (res : cmdResult) (err : option error) :
  cmdExec t (tshBinary t) ["status"] log = (Returned (res, err), log1) ->
  (err = None -> stdErr res = "" -> parseProfiles (stdOut res) <> Panicked) ->
  exists b : bool, isLogin os t log = (Returned b, log1).
Proof.
  intros Hexec Hscan. unfold isLogin, bind, ret, panic, time_Now. rewrite Hexec.
  destruct err as [e|]; [by eexists|].
  destruct (String.eqb_spec (stdErr res) "") as [Herr|Herr]; simpl; [|by eexists].
  destruct (parseProfiles (stdOut res)) as [profileMap|]; [|by destruct Hscan].
  destruct (profileMap !! proxy_Address (proxy t)); by eexists.
Qed.

End Session.

Lemma parseProfiles_status2099 :
  parseProfiles status2099
  = Returned {[ "https://proxy.example.com" :=
                  {| URL := "https://proxy.example.com"; ValidUntil := year2099 |} ]}.
Proof. vm_compute. reflexivity. Qed.

(** C1, as amended: let the status text be the two lines of the property.
    When the address of the proxy is the profile URL itself,
    [https://proxy.example.com], [isLogin] returns true whenever the clock
    reads a time before January 1, 2099, 00:00:00 UTC, and false from then
    on.  When the address is [https://proxy.example.com/webapi], no profile
    is stored under it and [isLogin] returns false whatever the clock
    reads. *)
Theorem isLogin_until_2099 (os : OS) (p : Proxy) (log : list Invocation) :
  os_run os log (statusProbe (NewTSH os p)) = prints status2099 ->
  (proxy_Address p = "https://proxy.example.com" ->
   isLogin os (NewTSH os p) log
   = (Returned (Time_Before (os_now os (log ++ [statusProbe (NewTSH os p)])) year2099),
      log ++ [statusProbe (NewTSH os p)]))
  /\ (proxy_Address p = "https://proxy.example.com/webapi" ->
      isLogin os (NewTSH os p) log
      = (Returned false, log ++ [statusProbe (NewTSH os p)])).
Proof.
  intros Hrun.
  assert (Hexec :
    cmdExec (NewTSH os p) (tshBinary (NewTSH os p)) ["status"] log
    = (Returned (prints status2099), log ++ [statusProbe (NewTSH os p)])).
  { unfold NewTSH at 1. simpl. unfold Command, exec_Run.
    fold (statusProbe (NewTSH os p)). by rewrite Hrun. }
  split; intros Haddr; unfold isLogin, bind; rewrite Hexec;
    unfold prints; cbn [stdErr stdOut]; rewrite parseProfiles_status2099;
    change (proxy (NewTSH os p)) with p; rewrite Haddr.
  - rewrite lookup_singleton_eq. reflexivity.
  - rewrite lookup_singleton_ne by done. reflexivity.
Qed.

Lemma isLogin_until_2099_witness :
  isLogin world2024 (NewTSH world2024 (proxyAt "https://proxy.example.com")) []
  = (Returned true, [{| inv_name := "tsh"; inv_args := ["status"] |}])
  /\ isLogin world2024 (NewTSH world2024 (proxyAt "https://proxy.example.com/webapi")) []
     = (Returned false, [{| inv_name := "tsh"; inv_args := ["status"] |}]).
Proof.
  split.
  - exact (proj1 (isLogin_until_2099 world2024 (proxyAt "https://proxy.example.com")
                    [] eq_refl) eq_refl).
  - exact (proj2 (isLogin_until_2099 world2024
                    (proxyAt "https://proxy.example.com/webapi") [] eq_refl) eq_refl).
Defined.

(** C1, as stated, fails: with the address
    [https://proxy.example.com/webapi] and a clock that reads a day of 2024,
    before 2099, [isLogin] returns false. *)
Lemma isLogin_webapi_not_logged_in :
  Time_Before may2024 year2099 = true
  /\ isLogin world2024
       (NewTSH world2024 (proxyAt "https://proxy.example.com/webapi")) []
     = (Returned false, [{| inv_name := "tsh"; inv_args := ["status"] |}]).
Proof. split; vm_compute; reflexivity. Qed.

(** A scan that panics makes [isLogin] panic. *)
Lemma isLogin_panics (os : OS) (t : TSH) (log log1 : list Invocation)
    (res : cmdResult) :
  cmdExec t (tshBinary t) ["status"] log = (Returned (res, None), log1) ->
  stdErr res = "" ->
  parseProfiles (stdOut res) = Panicked ->
  isLogin os t log = (Panicked, log1).
Proof.
  intros Hexec Herr Hscan. unfold isLogin, bind. rewrite Hexec, Herr, Hscan.
  reflexivity.
Qed.

(** C2, where the code departs from it: on a status text whose first line
    is an expiry line, no profile being in progress, the scan writes
    through a nil pointer and panics, and [isLogin] with it. *)
Theorem isLogin_expiry_before_profile :
  parseProfiles expiryOnly = Panicked
  /\ isLogin worldExpiryOnly
       (NewTSH worldExpiryOnly (proxyAt "https://proxy.example.com")) []
     = (Panicked, [{| inv_name := "tsh"; inv_args := ["status"] |}]).
Proof. split; vm_compute; reflexivity. Qed.

(** C3, where the code departs from it: the executor returns without
    error and with an empty error stream, the text holds no profile, and
    [isLogin] does not return false: it panics. *)
Theorem isLogin_missing_profile_panics :
  os_run worldNoProfile []
    (statusProbe (NewTSH worldNoProfile (proxyAt "https://proxy.example.com")))
  = ({| stdOut := statusNoProfile; stdErr := "" |}, None)
  /\ isLogin worldNoProfile
       (NewTSH worldNoProfile (proxyAt "https://proxy.example.com")) []
     = (Panicked, [{| inv_name := "tsh"; inv_args := ["status"] |}])
  /\ (forall (b : bool) (log' : list Invocation),
         isLogin worldNoProfile
           (NewTSH worldNoProfile (proxyAt "https://proxy.example.com")) []
         <> (Returned b, log')).
Proof.
  assert (H : isLogin worldNoProfile
                (NewTSH worldNoProfile (proxyAt "https://proxy.example.com")) []
              = (Panicked, [{| inv_name := "tsh"; inv_args := ["status"] |}]))
    by (vm_compute; reflexivity).
  split; [reflexivity|]. split; [exact H|].
  intros b log'. rewrite H. discriminate.
Qed.

(** ** The version gate of [Status] *)

Lemma IsSupported_below (m c : Version) :
  Version_lt c m -> IsSupported m c = false.
Proof.
  intros Hlt. apply not_true_is_false. intros [-> | Hle]%IsSupported_iff.
  - destruct Hlt; lia.
  - destruct Hlt, Hle; lia.
Qed.

Section Gate.

Variable os : OS.
Variable url_Parse : string -> url_URL + error.

(** [Version] runs [tsh version] once, and nothing else. *)
Lemma TSH_Version_log (t : TSH) (log : list Invocation) :
  snd (TSH_Version os t log) = log ++ [versionProbe t].
Proof.
  unfold TSH_Version, bind, exec_Run, ret. fold (versionProbe t).
  destruct (os_run os log (versionProbe t)) as [res [e|]]; [done|].
  destruct (negb _); [done|]. by destruct (String.eqb _ _).
Qed.

(** What makes [Version] fail: the run, the error stream, an empty
    output, or a banner [NewVersion] cannot read. *)
Lemma TSH_Version_result (t : TSH) (log : list Invocation) :
  fst (TSH_Version os t log)
  = Returned
      (let '(res, err) := os_run os log (versionProbe t) in
       match err with
       | Some e => inr e
       | None =>
           if negb (String.eqb (stdErr res) "") then inr (errors_New (stdErr res))
           else if String.eqb (stdOut res) "" then inr (errors_New "std out is empty")
           else NewVersion (stdOut res)
       end).
Proof.
  unfold TSH_Version, bind, exec_Run, ret. fold (versionProbe t).
  destruct (os_run os log (versionProbe t)) as [res [e|]]; [done|].
  destruct (negb _); [done|]. by destruct (String.eqb _ _).
Qed.

(** C5: when [IsSupported] of the minimum of the client refuses the version
    [Version] detects, and it refuses every version below the minimum,
    [Status] returns [ErrUnsupportedVersion] and has run nothing but
    [tsh version]; when [Version] fails, [Status] returns its error, and
    no status, having run nothing else either; and the minimum of a client
    made by [NewTSH] is 2.6.1. *)
Theorem Status_version_gate (t : TSH) (log log' : list Invocation) :
  (forall cv : Version,
      TSH_Version os t log = (Returned (inl cv), log') ->
      IsSupported (minVersion t) cv = false ->
      Status os url_Parse t log = (Returned (inr ErrUnsupportedVersion), log')
      /\ log' = log ++ [versionProbe t])
  /\ (forall cv : Version,
         Version_lt cv (minVersion t) -> IsSupported (minVersion t) cv = false)
  /\ (forall err : error,
         TSH_Version os t log = (Returned (inr err), log') ->
         Status os url_Parse t log = (Returned (inr err), log')
         /\ log' = log ++ [versionProbe t])
  /\ (forall p : Proxy,
         minVersion (NewTSH os p) = {| Major := 2; Minor := 6; Patch := 1 |}).
Proof.
  split; [|split; [|split; [|reflexivity]]].
  - intros cv Hv Hlow. split.
    + unfold Status, bind. rewrite Hv. by rewrite Hlow.
    + pose proof (TSH_Version_log t log) as Hl. by rewrite Hv in Hl.
  - intros cv. apply IsSupported_below.
  - intros err Hv. split.
    + unfold Status, bind. by rewrite Hv.
    + pose proof (TSH_Version_log t log) as Hl. by rewrite Hv in Hl.
Qed.

End Gate.

Lemma Status_version_gate_witness :
  Status worldOldTsh url_Parse_go
    (NewTSH worldOldTsh (proxyAt "https://proxy.example.com")) []
  = (Returned (inr ErrUnsupportedVersion),
     [{| inv_name := "tsh"; inv_args := ["version"] |}])
  /\ Status worldMuteTsh url_Parse_go
       (NewTSH worldMuteTsh (proxyAt "https://proxy.example.com")) []
     = (Returned (inr (errors_New "std out is empty")),
        [{| inv_name := "tsh"; inv_args := ["version"] |}]).
Proof.
  split.
  - destruct (Status_version_gate worldOldTsh url_Parse_go
                (NewTSH worldOldTsh (proxyAt "https://proxy.example.com")) []
                [{| inv_name := "tsh"; inv_args := ["version"] |}])
      as (Hgate & Hlow & _ & _).
    apply (Hgate {| Major := 2; Minor := 4; Patch := 5 |}); [reflexivity|].
    apply Hlow. apply lt_minor; reflexivity.
  - destruct (Status_version_gate worldMuteTsh url_Parse_go
                (NewTSH worldMuteTsh (proxyAt "https://proxy.example.com")) []
                [{| inv_name := "tsh"; inv_args := ["version"] |}])
      as (_ & _ & Hfail & _).
    apply (Hfail (errors_New "std out is empty")). reflexivity.
Defined.

(** ** [ListNodes] *)

Section Listing.

Variable os : OS.
Variable url_Parse : string -> url_URL + error.

(** C9, as amended: [ListNodes] first calls [Login] and returns its
    error, with an empty directory, when it has one.  Otherwise it builds
    the proxy flags, and when the address of the proxy does not parse as
    a URL it returns that error with an empty directory and runs
    nothing.  Otherwise it runs [tsh ls --proxy=<host>]; when the run
    fails it returns that error, when it wrote to its error stream it
    returns that text as an error, both with an empty directory; in
    every other case it returns [parseNodesFromString] of the captured
    output and no error, an empty directory included. *)
Theorem ListNodes_outcomes (t : TSH) (log log1 : list Invocation) :
  (forall e : error,
      Login os url_Parse t log = (Returned (Some e), log1) ->
      ListNodes os url_Parse t log = (Returned ({| Items := [] |}, Some e), log1))
  /\ (forall e : error,
         Login os url_Parse t log = (Returned None, log1) ->
         url_Parse (proxy_Address (proxy t)) = inr e ->
         ListNodes os url_Parse t log
         = (Returned ({| Items := [] |}, Some e), log1))
  /\ (forall (u : url_URL) (out : cmdResult) (e : error),
         Login os url_Parse t log = (Returned None, log1) ->
         url_Parse (proxy_Address (proxy t)) = inl u ->
         os_run os log1 (lsProbe t u) = (out, Some e) ->
         ListNodes os url_Parse t log
         = (Returned ({| Items := [] |}, Some e), log1 ++ [lsProbe t u]))
  /\ (forall (u : url_URL) (out : cmdResult),
         Login os url_Parse t log = (Returned None, log1) ->
         url_Parse (proxy_Address (proxy t)) = inl u ->
         os_run os log1 (lsProbe t u) = (out, None) ->
         stdErr out <> "" ->
         ListNodes os url_Parse t log
         = (Returned ({| Items := [] |}, Some (errors_New (stdErr out))),
            log1 ++ [lsProbe t u]))
  /\ (forall (u : url_URL) (out : cmdResult),
         Login os url_Parse t log = (Returned None, log1) ->
         url_Parse (proxy_Address (proxy t)) = inl u ->
         os_run os log1 (lsProbe t u) = (out, None) ->
         stdErr out = "" ->
         ListNodes os url_Parse t log
         = (Returned (parseNodesFromString (stdOut out), None),
            log1 ++ [lsProbe t u])).
Proof.
  repeat split.
  - intros e HL. unfold ListNodes, bind. by rewrite HL.
  - intros e HL Hu. unfold ListNodes, bind, getProxyFlags, cleanAddress.
    by rewrite HL, Hu.
  - intros u out e HL Hu Hrun.
    unfold ListNodes, bind, getProxyFlags, cleanAddress, exec_Run.
    rewrite HL, Hu. fold (lsProbe t u). by rewrite Hrun.
  - intros u out HL Hu Hrun Herr.
    unfold ListNodes, bind, getProxyFlags, cleanAddress, exec_Run.
    rewrite HL, Hu. fold (lsProbe t u). rewrite Hrun.
    apply String.eqb_neq in Herr. by rewrite Herr.
  - intros u out HL Hu Hrun Herr.
    unfold ListNodes, bind, getProxyFlags, cleanAddress, exec_Run.
    rewrite HL, Hu. fold (lsProbe t u). rewrite Hrun, Herr. reflexivity.
Qed.

End Listing.

Lemma ListNodes_outcomes_witness :
  ListNodes worldTwoNodes url_Parse_go
    (NewTSH worldTwoNodes (proxyAt "https://proxy.example.com")) []
  = (Returned
       ({| Items := [{| Hostname := "web-1"; Address := "10.0.0.7:3022" |};
                     {| Hostname := "db-1"; Address := "10.0.0.9:3022" |}] |},
        None),
     [{| inv_name := "tsh"; inv_args := ["status"] |};
      {| inv_name := "tsh"; inv_args := ["ls"; "--proxy=proxy.example.com"] |}])
  /\ ListNodes world2024 url_Parse_go
       (NewTSH world2024 (proxyAt "https://proxy.example.com")) []
     = (Returned ({| Items := [] |}, None),
        [{| inv_name := "tsh"; inv_args := ["status"] |};
         {| inv_name := "tsh"; inv_args := ["ls"; "--proxy=proxy.example.com"] |}]).
Proof.
  split.
  - destruct (ListNodes_outcomes worldTwoNodes url_Parse_go
                (NewTSH worldTwoNodes (proxyAt "https://proxy.example.com")) []
                [{| inv_name := "tsh"; inv_args := ["status"] |}])
      as (_ & _ & _ & _ & Hok).
    apply (Hok {| Host := "proxy.example.com" |} (fst (prints listing)));
      vm_compute; reflexivity.
  - destruct (ListNodes_outcomes world2024 url_Parse_go
                (NewTSH world2024 (proxyAt "https://proxy.example.com")) []
                [{| inv_name := "tsh"; inv_args := ["status"] |}])
      as (_ & _ & _ & _ & Hok).
    apply (Hok {| Host := "proxy.example.com" |} (fst silent));
      vm_compute; reflexivity.
Defined.

(** C9, as stated, fails: a session is open under the address
    [10.0.0.1:3080], so [Login] returns no error; the address does not
    parse as a URL, and [ListNodes] returns that error without running
    the listing. *)
Lemma ListNodes_unparsable_address :
  Login worldBareAddress url_Parse_go
    (NewTSH worldBareAddress (proxyAt "10.0.0.1:3080")) []
  = (Returned None, [{| inv_name := "tsh"; inv_args := ["status"] |}])
  /\ ListNodes worldBareAddress url_Parse_go
       (NewTSH worldBareAddress (proxyAt "10.0.0.1:3080")) []
     = (Returned ({| Items := [] |},
                  Some (url_Error "first path segment in URL cannot contain colon")),
        [{| inv_name := "tsh"; inv_args := ["status"] |}]).
Proof. split; vm_compute; reflexivity. Qed.

(** * Further properties *)

(** ** Pieces of a split *)

Lemma Split_pieces_without (s : string) (sep c : ascii) :
  strings_Contains s (String c "") = false ->
  Forall (fun p => strings_Contains p (String c "") = false) (strings_Split s sep).
Proof.
  induction s as [|d s IH]; intros Hs.
  - by repeat constructor.
  - rewrite Contains_byte_cons in Hs. apply orb_false_elim in Hs as [Hd Hs].
    specialize (IH Hs). simpl.
    destruct (Ascii.eqb d sep); [by constructor|].
    destruct (Split_cons s sep) as (p & ps & Hp). rewrite Hp in *.
    inversion IH; subst. constructor; [|done].
    by rewrite Contains_byte_cons, Hd.
Qed.

Lemma Split_pieces_nosep (s : string) (sep : ascii) :
  Forall (fun p => strings_Contains p (String sep "") = false) (strings_Split s sep).
Proof.
  induction s as [|d s IH]; simpl.
  - by repeat constructor.
  - destruct (Ascii.eqb d sep) eqn:Hd; [by constructor|].
    destruct (Split_cons s sep) as (p & ps & Hp). rewrite Hp in *.
    inversion IH; subst. constructor; [|done].
    by rewrite Contains_byte_cons, Hd.
Qed.

(** The first piece opens the string. *)
Lemma Split_head_prefix (s : string) (sep : ascii) (p : string) (ps : list string) :
  strings_Split s sep = p :: ps -> exists rest, s = p +:+ rest.
Proof.
  revert p ps. induction s as [|d s IH]; intros p ps; simpl.
  - intros [= <- <-]. by exists "".
  - destruct (Ascii.eqb d sep).
    + intros [= <- <-]. by exists (String d s).
    + destruct (strings_Split s sep) as [|q qs] eqn:Hq.
      * intros [= <- <-]. destruct (Split_cons s sep) as (? & ? & ?). congruence.
      * intros [= <- <-]. destruct (IH q qs eq_refl) as [rest ->].
        by exists rest.
Qed.

Lemma Split_head_empty (s : string) (sep : ascii) (ps : list string) :
  strings_Split s sep = EmptyString :: ps ->
  s = EmptyString \/ strings_HasPrefix s (String sep "") = true.
Proof.
  destruct s as [|d s]; [by left|]. simpl.
  destruct (Ascii.eqb d sep); [by right|].
  by destruct (strings_Split s sep).
Qed.

Lemma HasPrefix_app (s rest x : string) :
  strings_HasPrefix s x = true -> strings_HasPrefix (s +:+ rest) x = true.
Proof.
  revert s. induction x as [|c x IH]; intros s; [done|].
  destruct s as [|d s]; [done|]. rewrite append_cons. simpl.
  destruct (Ascii.eqb d c); [apply IH|done].
Qed.

(** ** The directory parser, further *)

Lemma lineEntries_in (line : string) (e : Item) :
  In e (lineEntries line) ->
  skippedLine line = false
  /\ (exists ps, nonEmptyTokens line = Hostname e :: ps)
  /\ (Address e = "" \/ In (Address e) (nonEmptyTokens line)).
Proof.
  rewrite lineEntries_tokens. destruct (skippedLine line); [done|].
  destruct (nonEmptyTokens line) as [|h [|a r]]; simpl; [done| |];
    intros [<- | []]; simpl; split; try done; split; eauto.
Qed.

Lemma nonEmptyTokens_in (line tok : string) :
  In tok (nonEmptyTokens line) -> tok <> "" /\ In tok (strings_Split line SP).
Proof.
  unfold nonEmptyTokens. intros [Hin Hne]%List.filter_In. split; [|done].
  by apply negb_true_iff, String.eqb_neq in Hne.
Qed.

Lemma token_clean (line tok : string) :
  strings_Contains line NL = false ->
  In tok (strings_Split line SP) -> cleanToken tok = true.
Proof.
  intros Hline Hin. unfold cleanToken.
  pose proof (Split_pieces_nosep line SP) as H1.
  pose proof (Split_pieces_without line SP LF Hline) as H2.
  rewrite List.Forall_forall in H1, H2.
  specialize (H1 tok Hin). specialize (H2 tok Hin).
  unfold SP in H1. unfold NL. by rewrite H1, H2.
Qed.

Lemma hostname_opens_line (line : string) (e : Item) :
  In e (lineEntries line) -> exists rest, line = Hostname e +:+ rest.
Proof.
  intros (Hskip & [ps Htok] & _)%lineEntries_in.
  unfold nonEmptyTokens in Htok.
  destruct (Split_cons line SP) as (p & qs & Hp). rewrite Hp in Htok.
  destruct (String.eqb_spec p "") as [-> | Hne].
  - pose proof Hp as Hq. apply Split_head_empty in Hq as [-> | Hsp].
    + simpl in Hp. injection Hp as <-. discriminate Htok.
    + unfold skippedLine in Hskip. fold SP in Hskip. rewrite Hsp in Hskip.
      by rewrite !orb_true_r in Hskip.
  - simpl in Htok. apply String.eqb_neq in Hne. rewrite Hne in Htok.
    simpl in Htok. injection Htok as <- _.
    by apply Split_head_prefix in Hp.
Qed.

Lemma lineEntries_listable (line : string) (e : Item) :
  strings_Contains line NL = false ->
  In e (lineEntries line) -> listable e = true.
Proof.
  intros Hline Hin.
  destruct (hostname_opens_line line e Hin) as [rest Hrest].
  destruct (lineEntries_in line e Hin) as (Hskip & [ps Htok] & Haddr).
  assert (Hh : In (Hostname e) (nonEmptyTokens line)) by (rewrite Htok; by left).
  apply nonEmptyTokens_in in Hh as [Hne Hh].
  assert (Ha : cleanToken (Address e) = true).
  { destruct Haddr as [-> | Ha]; [done|].
    apply nonEmptyTokens_in in Ha as [_ Ha]. by apply (token_clean line). }
  unfold skippedLine in Hskip.
  apply orb_false_elim in Hskip as [[H1 H2]%orb_false_elim _].
  assert (E1 : strings_HasPrefix (Hostname e) "Node" = false).
  { destruct (strings_HasPrefix (Hostname e) "Node") eqn:E1; [|done].
    apply (HasPrefix_app _ rest) in E1. rewrite <- Hrest in E1. congruence. }
  assert (E2 : strings_HasPrefix (Hostname e) "---" = false).
  { destruct (strings_HasPrefix (Hostname e) "---") eqn:E2; [|done].
    apply (HasPrefix_app _ rest) in E2. rewrite <- Hrest in E2. congruence. }
  unfold listable. apply String.eqb_neq in Hne.
  by rewrite Hne, (token_clean line _ Hline Hh), Ha, E1, E2.
Qed.

(** A prefix without space of a token followed by a space lies within the
    token. *)
Lemma HasPrefix_token (h a x : string) :
  strings_Contains x " " = false ->
  strings_HasPrefix (h +:+ String SP a) x = strings_HasPrefix h x.
Proof.
  revert h. induction x as [|c x IH]; intros h Hx; [done|].
  rewrite Contains_byte_cons in Hx. apply orb_false_elim in Hx as [Hc Hx].
  destruct h as [|d h].
  - change ("" +:+ String SP a) with (String SP a).
    cbn [strings_HasPrefix]. change (Ascii.eqb c SP = false) in Hc.
    by rewrite Ascii.eqb_sym, Hc.
  - rewrite append_cons. simpl. destruct (Ascii.eqb d c); [by apply IH|done].
Qed.

Lemma listable_facts (e : Item) :
  listable e = true ->
  String.eqb (Hostname e) "" = false
  /\ strings_Contains (Hostname e) " " = false
  /\ strings_Contains (Hostname e) NL = false
  /\ strings_Contains (Address e) " " = false
  /\ strings_Contains (Address e) NL = false
  /\ strings_HasPrefix (Hostname e) "Node" = false
  /\ strings_HasPrefix (Hostname e) "---" = false.
Proof.
  unfold listable, cleanToken.
  rewrite !andb_true_iff, !negb_true_iff. tauto.
Qed.

Lemma lineEntries_render (e : Item) :
  listable e = true -> lineEntries (renderLine e) = [e].
Proof.
  intros (Hne & Hh1 & Hh2 & Ha1 & Ha2 & HN & HS)%listable_facts.
  destruct e as [h a]. unfold renderLine. cbn [Hostname Address] in *.
  assert (Hsp : strings_HasPrefix (h +:+ String SP a) " " = false).
  { destruct h as [|d h]; [done|].
    rewrite Contains_byte_cons in Hh1. apply orb_false_elim in Hh1 as [Hd _].
    rewrite append_cons. cbn [strings_HasPrefix]. by rewrite Hd. }
  rewrite lineEntries_tokens. unfold skippedLine, nonEmptyTokens.
  rewrite !HasPrefix_token by reflexivity. rewrite HN, HS, Hsp.
  cbn [orb]. rewrite (Split_first h a SP) by done.
  rewrite (Split_without a SP) by done.
  cbn [List.filter]. rewrite Hne. cbn [negb].
  destruct (String.eqb_spec a "") as [-> | Ha]; reflexivity.
Qed.

Lemma renderLine_one_line (e : Item) :
  listable e = true -> strings_Contains (renderLine e) NL = false.
Proof.
  intros (Hne & Hh1 & Hh2 & Ha1 & Ha2 & HN & HS)%listable_facts.
  unfold renderLine, NL in *.
  by rewrite Contains_byte_app, Contains_byte_cons, Hh2, Ha2.
Qed.

Lemma flat_map_render (items : list Item) :
  forallb listable items = true ->
  flat_map lineEntries (strings_Split (renderListing items) LF) = items.
Proof.
  induction items as [|e items IH]; [done|].
  simpl. intros [He Hrest]%andb_prop.
  rewrite Split_app, flat_map_app, (IH Hrest).
  rewrite (Split_without _ LF (renderLine_one_line e He)). simpl.
  by rewrite (lineEntries_render e He).
Qed.

Lemma parsed_entries_listable (nodeStr : string) :
  forallb listable (Items (parseNodesFromString nodeStr)) = true.
Proof.
  apply List.forallb_forall. intros e. rewrite parseNodes_flat.
  intros (line & Hline & He)%List.in_flat_map.
  apply (lineEntries_listable line); [|done].
  pose proof (Split_pieces_nosep nodeStr LF) as H.
  rewrite List.Forall_forall in H. by apply H.
Qed.

Lemma Item_eqb_eq (a b : Item) : Item_eqb a b = true -> a = b.
Proof.
  destruct a as [h1 a1], b as [h2 a2]. unfold Item_eqb. simpl.
  intros [->%String.eqb_eq ->%String.eqb_eq]%andb_prop. reflexivity.
Qed.

(** C8: every entry of the directory has a non-empty hostname or a
    non-empty address; a line whose tokens leave both fields empty adds no
    entry, while a line that is not skipped and whose tokens fill a field
    adds exactly the entry made of them; the directory is made of what the
    lines add, line after line in the order of the text, so the directory
    of two listings joined by a line feed is the directory of the first
    followed by the directory of the second; and a listing with one line
    `hostname address` per entry gives back those entries in that order,
    those that occur twice being kept twice. *)
Theorem parseNodesFromString_entries :
  (forall nodeStr : string,
      Forall (fun e => Hostname e <> "" \/ Address e <> "")
             (Items (parseNodesFromString nodeStr)))
  /\ (forall line : string,
         scanColumns (strings_Split line SP) 0 Item_zero = Item_zero ->
         lineEntries line = [])
  /\ (forall a b : string,
         Items (parseNodesFromString (a +:+ String LF b))
         = Items (parseNodesFromString a) ++ Items (parseNodesFromString b))
  /\ (forall nodeStr : string,
         Items (parseNodesFromString nodeStr)
         = flat_map lineEntries (strings_Split nodeStr LF))
  /\ (forall line : string,
         skippedLine line = false ->
         scanColumns (strings_Split line SP) 0 Item_zero <> Item_zero ->
         lineEntries line = [scanColumns (strings_Split line SP) 0 Item_zero])
  /\ (forall items : list Item,
         forallb listable items = true ->
         Items (parseNodesFromString (renderListing items)) = items).
Proof.
  split; [|split; [|split; [|split; [|split]]]].
  - intros nodeStr. rewrite parseNodes_flat. apply Forall_flat_map.
    apply List.Forall_forall. intros line _.
    eapply List.Forall_impl; [|apply lineEntries_hostname].
    intros e He. by left.
  - intros line Hz. unfold lineEntries, parseNodeLine.
    destruct (_ || _); [done|]. by rewrite Hz.
  - intros a b. by rewrite !parseNodes_flat, Split_app, flat_map_app.
  - exact parseNodes_flat.
  - intros line Hskip Hnode. unfold lineEntries, parseNodeLine.
    unfold skippedLine in Hskip. rewrite Hskip.
    destruct (Item_eqb _ Item_zero) eqn:Heq; [|done].
    by apply Item_eqb_eq in Heq.
  - intros items Hitems. rewrite parseNodes_flat. by apply flat_map_render.
Qed.

Lemma parseNodesFromString_entries_witness :
  lineEntries "" = []
  /\ lineEntries "web-1  10.0.0.7:3022  env=prod"
     = [{| Hostname := "web-1"; Address := "10.0.0.7:3022" |}]
  /\ Items (parseNodesFromString
              (renderListing
                 [{| Hostname := "web-1"; Address := "10.0.0.7:3022" |};
                  {| Hostname := "db-1"; Address := "10.0.0.9:3022" |};
                  {| Hostname := "web-1"; Address := "10.0.0.7:3022" |}]))
     = [{| Hostname := "web-1"; Address := "10.0.0.7:3022" |};
        {| Hostname := "db-1"; Address := "10.0.0.9:3022" |};
        {| Hostname := "web-1"; Address := "10.0.0.7:3022" |}].
Proof.
  destruct parseNodesFromString_entries as (_ & Hempty & _ & _ & Hadds & Horder).
  split; [|split].
  - apply Hempty. reflexivity.
  - apply (Hadds "web-1  10.0.0.7:3022  env=prod"); [reflexivity|discriminate].
  - apply Horder. reflexivity.
Defined.

(** X1: every entry [parseNodesFromString] returns is listable: its
    hostname is not empty and opens neither with [Node] nor with [---], and
    neither field holds a space or a line feed (so a node named [Node-7] is
    never listed); and the listing of a parsed directory parses back to
    that directory. *)
Theorem parseNodesFromString_listable (nodeStr : string) :
  forallb listable (Items (parseNodesFromString nodeStr)) = true
  /\ Items (parseNodesFromString
              (renderListing (Items (parseNodesFromString nodeStr))))
     = Items (parseNodesFromString nodeStr).
Proof.
  split; [apply parsed_entries_listable|].
  rewrite (parseNodes_flat (renderListing _)).
  apply flat_map_render, parsed_entries_listable.
Qed.

(** X2: a directory of listable entries, written one entry a line as
    hostname, space, address, parses back to itself, in order and with its
    duplicates; a header or separator line put before it changes
    nothing. *)
Theorem parseNodesFromString_render (items : list Item) :
  forallb listable items = true ->
  Items (parseNodesFromString (renderListing items)) = items
  /\ (forall header : string,
         skippedLine header = true ->
         strings_Contains header NL = false ->
         Items (parseNodesFromString (header +:+ String LF (renderListing items)))
         = items).
Proof.
  intros Hitems. split.
  - rewrite parseNodes_flat. by apply flat_map_render.
  - intros header Hskip Hline.
    rewrite parseNodes_flat, Split_app, flat_map_app, (flat_map_render _ Hitems).
    rewrite (Split_without _ LF Hline). simpl.
    rewrite lineEntries_tokens, Hskip. reflexivity.
Qed.

Lemma parseNodesFromString_render_witness :
  Items (parseNodesFromString
           ("Node Name  Address" +:+ String LF
              (renderListing
                 [{| Hostname := "web-1"; Address := "10.0.0.7:3022" |};
                  {| Hostname := "db-1"; Address := "" |};
                  {| Hostname := "web-1"; Address := "10.0.0.7:3022" |}])))
  = [{| Hostname := "web-1"; Address := "10.0.0.7:3022" |};
     {| Hostname := "db-1"; Address := "" |};
     {| Hostname := "web-1"; Address := "10.0.0.7:3022" |}].
Proof.
  apply (parseNodesFromString_render
           [{| Hostname := "web-1"; Address := "10.0.0.7:3022" |};
            {| Hostname := "db-1"; Address := "" |};
            {| Hostname := "web-1"; Address := "10.0.0.7:3022" |}]);
    reflexivity.
Defined.

(** ** Profiles, further *)

Lemma commitProfile_keyed (currentProfile : option Profile)
    (profileMap : gmap string Profile) :
  profilesKeyed profileMap -> profilesKeyed (commitProfile currentProfile profileMap).
Proof.
  intros Hk. unfold commitProfile. destruct currentProfile as [q|]; [|done].
  destruct (String.eqb_spec (URL q) "") as [He|Hne]; simpl; [done|].
  intros k p. rewrite lookup_insert. case_decide as Hd.
  - intros [= <-]. by subst k.
  - apply Hk.
Qed.

Lemma scanProfileLine_keyed (st st' : option Profile * gmap string Profile)
    (line : string) :
  scanProfileLine st line = Returned st' ->
  profilesKeyed (snd st) -> profilesKeyed (snd st').
Proof.
  destruct st as [cur profileMap]. unfold scanProfileLine.
  destruct (strings_Contains line "Profile URL:").
  { intros [= <-] Hk. by apply commitProfile_keyed. }
  destruct (strings_Contains line "Valid until:").
  { destruct cur; [|done]. by intros [= <-]. }
  by intros [= <-].
Qed.

Lemma scanProfiles_keyed (lines : list string)
    (st st' : option Profile * gmap string Profile) :
  scanProfiles lines st = Returned st' ->
  profilesKeyed (snd st) -> profilesKeyed (snd st').
Proof.
  revert st. induction lines as [|line lines IH]; intros st; simpl.
  - by intros [= <-].
  - destruct (scanProfileLine st line) as [st1|] eqn:Hline; [|done].
    intros Hrest Hk. apply (IH st1 Hrest).
    by apply (scanProfileLine_keyed st st1 line).
Qed.

(** X3: in the profiles [isLogin] reads off a status text every profile is
    stored under its own URL, and none under the empty URL. *)
Theorem parseProfiles_keyed (statusText : string)
    (profileMap : gmap string Profile) (k : string) (p : Profile) :
  parseProfiles statusText = Returned profileMap ->
  profileMap !! k = Some p ->
  URL p = k /\ k <> "".
Proof.
  unfold parseProfiles.
  destruct (scanProfiles (bufio_ScanLines statusText) (None, ∅))
    as [[cur pm]|] eqn:Hscan; [|done].
  intros [= <-]. apply commitProfile_keyed.
  apply (scanProfiles_keyed _ _ _ Hscan). intros k' p'. simpl.
  by rewrite lookup_empty.
Qed.

Lemma parseProfiles_keyed_witness :
  URL {| URL := "https://proxy.example.com"; ValidUntil := year2099 |}
  = "https://proxy.example.com"
  /\ "https://proxy.example.com" <> "".
Proof.
  apply (parseProfiles_keyed status2099
           {[ "https://proxy.example.com" :=
                {| URL := "https://proxy.example.com"; ValidUntil := year2099 |} ]}).
  - vm_compute. reflexivity.
  - vm_compute. reflexivity.
Defined.

Lemma scanProfiles_nil_panics (lines : list string)
    (profileMap : gmap string Profile) :
  scanProfiles lines (None, profileMap) = Panicked
  <-> expiryBeforeProfile lines = true.
Proof.
  induction lines as [|line lines IH]; simpl; [done|].
  destruct (strings_Contains line "Profile URL:").
  { match goal with
    | |- context [scanProfiles lines (Some ?q, ?m)] =>
        destruct (scanProfiles_from_profile lines q m) as (p' & pm' & ->)
    end.
    done. }
  destruct (strings_Contains line "Valid until:"); [done|].
  apply IH.
Qed.

Lemma parseProfiles_panics (statusText : string) :
  parseProfiles statusText = Panicked
  <-> expiryBeforeProfile (bufio_ScanLines statusText) = true.
Proof.
  rewrite <- (scanProfiles_nil_panics _ ∅). unfold parseProfiles.
  destruct (scanProfiles _ _) as [[cur pm]|]; done.
Qed.

Section SessionFurther.

Variable os : OS.

(** With its proxy set, [isLogin] panics exactly when its executor does,
    or when the executor returns without error and with an empty error
    stream an output in which an expiry line comes before any profile
    line. *)
Lemma isLogin_panics_with_proxy (t : TSH) (log log' : list Invocation) :
  isLogin os t log = (Panicked, log') <->
  cmdExec t (tshBinary t) ["status"] log = (Panicked, log')
  \/ exists res : cmdResult,
       cmdExec t (tshBinary t) ["status"] log = (Returned (res, None), log')
       /\ stdErr res = ""
       /\ expiryBeforeProfile (bufio_ScanLines (stdOut res)) = true.
Proof.
  unfold isLogin, bind, ret, panic, time_Now.
  destruct (cmdExec t (tshBinary t) ["status"] log) as [[[res [e|]]|] log1].
  - split; [done|]. intros [[=] | (? & [=] & _)].
  - destruct (String.eqb_spec (stdErr res) "") as [Herr|Herr]; simpl.
    2: { split; [done|]. intros [[=] | (? & [= <- <-] & ? & _)]. done. }
    destruct (parseProfiles (stdOut res)) as [profileMap|] eqn:Hscan.
    + split.
      * by destruct (profileMap !! proxy_Address (proxy t)).
      * intros [[=] | (? & [= <- <-] & _ & Hexp)].
        apply parseProfiles_panics in Hexp. congruence.
    + apply parseProfiles_panics in Hscan. split.
      * intros [= <-]. right. by exists res.
      * intros [[=] | (? & [= <- <-] & _)]. reflexivity.
  - split.
    + intros [= <-]. by left.
    + intros [[= <-] | (? & [=] & _)]. reflexivity.
Qed.

(** [isLogin] returns false exactly when its executor returns and either
    reports an error, or wrote to its error stream, or gave an output
    whose profiles hold nothing under the very address of the proxy, or
    hold there a profile that does not expire after the time read from
    the clock. *)
Lemma isLogin_false_iff (t : TSH) (log log' : list Invocation) :
  isLogin os t log = (Returned false, log') <->
  exists (res : cmdResult) (err : option error),
    cmdExec t (tshBinary t) ["status"] log = (Returned (res, err), log')
    /\ (err <> None
        \/ (err = None /\ stdErr res <> "")
        \/ (err = None /\ stdErr res = ""
            /\ exists profileMap : gmap string Profile,
                 parseProfiles (stdOut res) = Returned profileMap
                 /\ (profileMap !! proxy_Address (proxy t) = None
                     \/ exists target : Profile,
                          profileMap !! proxy_Address (proxy t) = Some target
                          /\ Time_Before (os_now os log') (ValidUntil target)
                             = false))).
Proof.
  unfold isLogin, bind, ret, panic, time_Now.
  destruct (cmdExec t (tshBinary t) ["status"] log) as [[[res [e|]]|] log1].
  - split.
    + intros [= <-]. exists res, (Some e). split; [done|]. by left.
    + by intros (? & ? & [= <- <- <-] & _).
  - destruct (String.eqb_spec (stdErr res) "") as [Herr|Herr]; simpl.
    2: { split.
         - intros [= <-]. exists res, None. split; [done|]. right. by left.
         - by intros (? & ? & [= <- <- <-] & _). }
    destruct (parseProfiles (stdOut res)) as [profileMap|] eqn:Hscan.
    + destruct (profileMap !! proxy_Address (proxy t)) as [target|] eqn:Hlook.
      * split.
        -- intros [= Hb <-]. exists res, None. split; [done|].
           right. right. repeat split; try done.
           exists profileMap. split; [done|]. right. by exists target.
        -- intros (? & ? & [= <- <- <-] & [Hn | [[_ Hn] | (_ & _ & pm & Hpm & Hcase)]]);
             try done.
           assert (pm = profileMap) as -> by congruence.
           destruct Hcase as [Hnone | (tg & Htg & Hb)]; [congruence|].
           assert (tg = target) as -> by congruence. by rewrite Hb.
      * split; [|by intros (? & ? & [= <- <- <-] & _)].
        intros [= <-]. exists res, None. split; [done|].
        right. right. repeat split; try done.
        exists profileMap. split; [done|]. by left.
    + split; [done|].
      intros (? & ? & [= <- <- <-] & [Hn | [[_ Hn] | (_ & _ & pm & Hpm & _)]]);
        done || congruence.
  - split; [done|]. by intros (? & ? & [=] & _).
Qed.

(** X4: [isLogin] panics in three cases and no other: the proxy of the
    client is nil, and then nothing has been run; or the proxy is set and
    the executor panics; or the proxy is set and the executor returns
    without error and with an empty error stream an output in which an
    expiry line comes before any profile line. *)
Theorem isLogin_panics_iff (r : TSHPtr) (log log' : list Invocation) :
  isLoginPtr os r log = (Panicked, log') <->
  (ptr_proxy r = None /\ log' = log)
  \/ exists p : Proxy,
       ptr_proxy r = Some p
       /\ (ptr_cmdExec r (tshBinary (withProxy r p)) ["status"] log
           = (Panicked, log')
           \/ exists res : cmdResult,
                ptr_cmdExec r (tshBinary (withProxy r p)) ["status"] log
                = (Returned (res, None), log')
                /\ stdErr res = ""
                /\ expiryBeforeProfile (bufio_ScanLines (stdOut res)) = true).
Proof.
  unfold isLoginPtr. destruct (ptr_proxy r) as [p|].
  - rewrite (isLogin_panics_with_proxy (withProxy r p)). split.
    + intros H. right. by exists p.
    + intros [[[=] _] | (q & [= <-] & H)]. exact H.
  - unfold panic. split.
    + intros [= <-]. by left.
    + intros [[_ ->] | (q & [=] & _)]. reflexivity.
Qed.

(** A client made from a nil proxy panics on its first probe, nothing
    run. *)
Lemma isLogin_nil_proxy :
  isLoginPtr os (NewTSHPtr os None) [] = (Panicked, []).
Proof. reflexivity. Qed.

(** X5: the verdict of [isLogin].  It returns true exactly when its
    executor returned without error and with an empty error stream, the
    scan of the output ran to its end, the profiles hold an entry under
    the very address of the proxy, and that entry expires after the time
    read from the clock.  It returns false exactly when its executor
    returns and either reports an error, or wrote to its error stream, or
    gave an output whose profiles hold nothing under that address or hold
    there a profile that does not expire after the time read. *)
Theorem isLogin_verdict (t : TSH) (log log' : list Invocation) :
  (isLogin os t log = (Returned true, log') <->
   exists (res : cmdResult) (profileMap : gmap string Profile) (target : Profile),
     cmdExec t (tshBinary t) ["status"] log = (Returned (res, None), log')
     /\ stdErr res = ""
     /\ parseProfiles (stdOut res) = Returned profileMap
     /\ profileMap !! proxy_Address (proxy t) = Some target
     /\ Time_Before (os_now os log') (ValidUntil target) = true)
  /\ (isLogin os t log = (Returned false, log') <->
      exists (res : cmdResult) (err : option error),
        cmdExec t (tshBinary t) ["status"] log = (Returned (res, err), log')
        /\ (err <> None
            \/ (err = None /\ stdErr res <> "")
            \/ (err = None /\ stdErr res = ""
                /\ exists profileMap : gmap string Profile,
                     parseProfiles (stdOut res) = Returned profileMap
                     /\ (profileMap !! proxy_Address (proxy t) = None
                         \/ exists target : Profile,
                              profileMap !! proxy_Address (proxy t) = Some target
                              /\ Time_Before (os_now os log') (ValidUntil target)
                                 = false)))).
Proof. split; [apply isLogin_true|apply isLogin_false_iff]. Qed.

End SessionFurther.

(** ** Lines that do not fit the scanner *)

Lemma takeFitting_stops (fitting : list string) (long : string)
    (later : list string) :
  (MaxScanTokenSize <=? N.of_nat (String.length long))%N = true ->
  takeFitting (fitting ++ long :: later) = takeFitting fitting.
Proof.
  intros Hlong. induction fitting as [|p ps IH]; simpl.
  - apply N.leb_le in Hlong.
    destruct (N.ltb_spec (N.of_nat (String.length long)) MaxScanTokenSize); [lia|done].
  - destruct (N.of_nat (String.length p) <? MaxScanTokenSize)%N; [by rewrite IH|done].
Qed.

Lemma rawLines_closed (a : string) :
  rawLines (a +:+ NL) = strings_Split a LF.
Proof.
  unfold rawLines, NL. rewrite Split_app. simpl.
  rewrite List.last_last, List.removelast_last. reflexivity.
Qed.

Lemma rawLines_long_line (a long b : string) :
  strings_Contains long NL = false ->
  exists later : list string,
    rawLines (a +:+ String LF (long +:+ String LF b))
    = strings_Split a LF ++ long :: later.
Proof.
  intros Hlong. unfold rawLines.
  rewrite !Split_app, (Split_without long LF Hlong).
  destruct (Split_cons b LF) as (p & ps & Hb). rewrite Hb.
  destruct (String.eqb _ _).
  - exists (List.removelast (p :: ps)).
    rewrite List.removelast_app by done.
    change ([long] ++ p :: ps) with (long :: p :: ps).
    reflexivity.
  - by exists (p :: ps).
Qed.

(** X6: a line of 65536 bytes or more ends the scan of [isLogin]: that
    line and whatever follows it are not read, so the profiles of the text
    are those of what precedes the line. *)
Theorem parseProfiles_long_line (a long b : string) :
  strings_Contains long NL = false ->
  (MaxScanTokenSize <=? N.of_nat (String.length long))%N = true ->
  bufio_ScanLines (a +:+ String LF (long +:+ String LF b))
  = bufio_ScanLines (a +:+ NL)
  /\ parseProfiles (a +:+ String LF (long +:+ String LF b))
     = parseProfiles (a +:+ NL).
Proof.
  intros Hline Hlong.
  assert (Hscan : bufio_ScanLines (a +:+ String LF (long +:+ String LF b))
                  = bufio_ScanLines (a +:+ NL)).
  { unfold bufio_ScanLines. rewrite rawLines_closed.
    destruct (rawLines_long_line a long b Hline) as [later ->].
    by rewrite (takeFitting_stops _ _ _ Hlong). }
  split; [done|]. unfold parseProfiles. by rewrite Hscan.
Qed.

Lemma parseProfiles_long_line_witness :
  parseProfiles
    ("Logged in as: alice" +:+ String LF
       (repeatByte (N.to_nat 65536) "x" +:+ String LF status2099))
  = parseProfiles ("Logged in as: alice" +:+ NL).
Proof.
  apply (parseProfiles_long_line "Logged in as: alice"
           (repeatByte (N.to_nat 65536) "x") status2099);
    vm_compute; reflexivity.
Defined.

(** ** The layout of the expiry *)

Lemma Suffix_refl (s : string) : Suffix s s.
Proof. by exists "". Qed.

Lemma Suffix_cons (c : ascii) (r s : string) : Suffix r s -> Suffix r (String c s).
Proof. intros [pre ->]. by exists (String c pre). Qed.

Lemma Suffix_trans (r s t : string) : Suffix r s -> Suffix s t -> Suffix r t.
Proof.
  intros [p1 ->] [p2 ->]. exists (p2 +:+ p1). by rewrite append_assoc.
Qed.

Lemma dropBytes_suffix (n : nat) (s : string) : Suffix (dropBytes n s) s.
Proof.
  revert s. induction n as [|n IH]; intros s; [apply Suffix_refl|].
  destruct s as [|c s]; [apply Suffix_refl|]. simpl. apply Suffix_cons, IH.
Qed.

Lemma cutspace_suffix (s : string) : Suffix (cutspace s) s.
Proof.
  induction s as [|c s IH]; [apply Suffix_refl|]. simpl.
  destruct (Ascii.eqb c SP); [by apply Suffix_cons|apply Suffix_refl].
Qed.

Lemma skip_suffix (prefix value rest : string) (cut : bool) :
  skip cut value prefix = Some rest -> Suffix rest value.
Proof.
  revert value cut. induction prefix as [|p prefix IH]; intros value cut; simpl.
  - intros [= <-]. apply Suffix_refl.
  - destruct (Ascii.eqb p SP).
    + destruct cut; [apply IH|].
      destruct value as [|v value]; [apply IH|].
      destruct (Ascii.eqb v SP) eqn:Hv; [|done].
      intros H%IH. eapply Suffix_trans; [exact H|apply cutspace_suffix].
    + destruct value as [|v value]; [done|].
      destruct (Ascii.eqb v p); [|done].
      intros H%IH. by apply Suffix_cons.
Qed.

Lemma getnum_suffix (s rest : string) (fixed : bool) (n : Z) :
  getnum s fixed = Some (n, rest) -> Suffix rest s.
Proof.
  unfold getnum. destruct s as [|c0 [|c1 s2]]; [done| |].
  - destruct (isDigit c0); [|done]. destruct fixed; [done|].
    intros [= _ <-]. apply Suffix_cons, Suffix_refl.
  - destruct (isDigit c0); [|done]. destruct (isDigit c1).
    + intros [= _ <-]. apply Suffix_cons, Suffix_cons, Suffix_refl.
    + destruct fixed; [done|]. intros [= _ <-]. apply Suffix_cons, Suffix_refl.
Qed.

Lemma longYear_suffix (value rest : string) (year : Z) :
  longYear value = Some (year, rest) -> Suffix rest value.
Proof.
  unfold longYear. destruct (_ && _); [|done].
  intros [= _ <-]. exact (dropBytes_suffix 4 value).
Qed.

Lemma spanDigits_suffix (s : string) : Suffix (snd (spanDigits s)) s.
Proof. destruct (spanDigits_spec s) as [H _]. by exists (fst (spanDigits s)). Qed.

Lemma fractionalSecond_suffix (value : string) :
  Suffix (snd (fractionalSecond value)) value.
Proof.
  unfold fractionalSecond.
  destruct value as [|c0 [|c1 tail]]; try apply Suffix_refl.
  destruct (_ && _); [|apply Suffix_refl].
  pose proof (spanDigits_suffix (String c1 tail)) as H.
  destruct (spanDigits (String c1 tail)) as [ds rest]. simpl in *.
  by apply Suffix_cons.
Qed.

Lemma numTZ_suffix (value rest : string) (offset : Z) :
  numTZ value = Some (offset, rest) -> Suffix rest value.
Proof.
  unfold numTZ.
  destruct value as [|sign [|h0 [|h1 [|m0 [|m1 tail]]]]]; try done.
  destruct (_ && _); [|done]. destruct (_ || _); [done|].
  assert (Suffix tail (String sign (String h0 (String h1 (String m0 (String m1 tail))))))
    by (do 5 apply Suffix_cons; apply Suffix_refl).
  destruct (Ascii.eqb sign "+"); [by intros [= _ <-]|].
  destruct (Ascii.eqb sign "-"); [by intros [= _ <-]|done].
Qed.

(** Literal text without a space is matched byte for byte. *)
Lemma skip_literal (prefix value rest : string) (cut : bool) :
  strings_Contains prefix " " = false ->
  skip cut value prefix = Some rest -> value = prefix +:+ rest.
Proof.
  revert value cut. induction prefix as [|p prefix IH]; intros value cut Hp; simpl.
  - by intros [= <-].
  - rewrite Contains_byte_cons in Hp. apply orb_false_elim in Hp as [Hps Hp].
    change (Ascii.eqb p SP = false) in Hps. rewrite Hps.
    destruct value as [|v value]; [done|].
    destruct (Ascii.eqb_spec v p) as [-> | Hne]; [|done].
    intros H%IH; [|done]. by rewrite H.
Qed.

Lemma skip_zone_name (value : string) :
  skip false value " WIB" = Some EmptyString -> Suffix "WIB" value.
Proof.
  change (skip false value " WIB")
    with (match value with
          | String v _ =>
              if Ascii.eqb v SP then skip true (cutspace value) "WIB" else None
          | EmptyString => skip true value "WIB"
          end).
  destruct value as [|v value]; [done|].
  destruct (Ascii.eqb v SP); [|done].
  intros H%skip_literal; [|reflexivity].
  change ("WIB" +:+ "") with "WIB" in H.
  rewrite <- H. apply cutspace_suffix.
Qed.

(** X7: [time.Parse] with the layout of [isLogin] accepts a timestamp only
    when it ends with the zone name [WIB]; an expiry printed with any other
    zone name does not parse. *)
Theorem parseLayout_zone_name (value : string) (t : Time) :
  parseLayout value = Some t -> Suffix "WIB" value.
Proof.
  unfold parseLayout. intros H.
  destruct (longYear value) as [[year v1]|] eqn:E1; [|discriminate H].
  cbn [mbind option_bind] in H.
  destruct (skip false v1 "-") as [v2|] eqn:E2; [|discriminate H].
  cbn [mbind option_bind] in H.
  destruct (getnum v2 true) as [[month v3]|] eqn:E3; [|discriminate H].
  cbn [mbind option_bind] in H.
  destruct (skip false v3 "-") as [v4|] eqn:E4; [|discriminate H].
  cbn [mbind option_bind] in H.
  destruct (getnum v4 true) as [[day v5]|] eqn:E5; [|discriminate H].
  cbn [mbind option_bind] in H.
  destruct (skip false v5 " ") as [v6|] eqn:E6; [|discriminate H].
  cbn [mbind option_bind] in H.
  destruct (getnum v6 false) as [[hour v7]|] eqn:E7; [|discriminate H].
  cbn [mbind option_bind] in H.
  destruct (skip false v7 ":") as [v8|] eqn:E8; [|discriminate H].
  cbn [mbind option_bind] in H.
  destruct (getnum v8 true) as [[min v9]|] eqn:E9; [|discriminate H].
  cbn [mbind option_bind] in H.
  destruct (skip false v9 ":") as [v10|] eqn:E10; [|discriminate H].
  cbn [mbind option_bind] in H.
  destruct (getnum v10 true) as [[sec v11]|] eqn:E11; [|discriminate H].
  cbn [mbind option_bind] in H.
  pose proof (fractionalSecond_suffix v11) as E12.
  destruct (fractionalSecond v11) as [nsec v12]. cbn [snd] in E12.
  destruct (skip false v12 " ") as [v13|] eqn:E13; [|discriminate H].
  cbn [mbind option_bind] in H.
  destruct (numTZ v13) as [[zoneOffset v14]|] eqn:E14; [|discriminate H].
  cbn [mbind option_bind] in H.
  destruct (skip false v14 " WIB") as [v15|] eqn:E15; [|discriminate H].
  cbn [mbind option_bind] in H.
  destruct (String.eqb_spec v15 "") as [-> | Hne]; [|discriminate H].
  clear H.
  apply skip_zone_name in E15.
  apply numTZ_suffix in E14. apply skip_suffix in E13.
  apply getnum_suffix in E11. apply skip_suffix in E10.
  apply getnum_suffix in E9. apply skip_suffix in E8.
  apply getnum_suffix in E7. apply skip_suffix in E6.
  apply getnum_suffix in E5. apply skip_suffix in E4.
  apply getnum_suffix in E3. apply skip_suffix in E2.
  apply longYear_suffix in E1.
  eapply Suffix_trans; [exact E15|]. eapply Suffix_trans; [exact E14|].
  eapply Suffix_trans; [exact E13|]. eapply Suffix_trans; [exact E12|].
  eapply Suffix_trans; [exact E11|]. eapply Suffix_trans; [exact E10|].
  eapply Suffix_trans; [exact E9|]. eapply Suffix_trans; [exact E8|].
  eapply Suffix_trans; [exact E7|]. eapply Suffix_trans; [exact E6|].
  eapply Suffix_trans; [exact E5|]. eapply Suffix_trans; [exact E4|].
  eapply Suffix_trans; [exact E3|]. eapply Suffix_trans; [exact E2|].
  exact E1.
Qed.

Lemma parseLayout_zone_name_witness :
  Suffix "WIB" "2099-01-01 00:00:00 +0000 WIB".
Proof.
  apply (parseLayout_zone_name "2099-01-01 00:00:00 +0000 WIB" year2099).
  vm_compute. reflexivity.
Defined.

(** ** The status scan, further *)

Lemma Replace_gt_cons (c : ascii) (s : string) :
  strings_Replace (String c s) ">" ""
  = if Ascii.eqb c ">" then strings_Replace s ">" ""
    else String c (strings_Replace s ">" "").
Proof.
  unfold strings_Replace. cbn [replaceAll strings_HasPrefix].
  by destruct (Ascii.eqb c ">").
Qed.

Lemma Replace_gt_app (a b : string) :
  strings_Replace (a +:+ b) ">" ""
  = strings_Replace a ">" "" +:+ strings_Replace b ">" "".
Proof.
  induction a as [|c a IH]; [done|].
  rewrite append_cons, !Replace_gt_cons, IH.
  by destruct (Ascii.eqb c ">").
Qed.

(** X8: [parseStringToStatus] does not see the character [>]: putting one
    anywhere in the text changes nothing of the status read from it. *)
Theorem parseStringToStatus_prompt (a b : string) :
  parseStringToStatus (a +:+ String ">" b) = parseStringToStatus (a +:+ b).
Proof.
  unfold parseStringToStatus.
  by rewrite !Replace_gt_app, Replace_gt_cons, Ascii.eqb_refl.
Qed.

Lemma statusLine_keyed (res : ProxyStatus) (line : string) :
  statusLine res line
  = if String.eqb (keyOf line) "Logged in as" then
      {| LoginAs := strings_TrimSpace (valueOf line); Roles := Roles res;
         UserLogins := UserLogins res |}
    else if String.eqb (keyOf line) "Roles" then
      {| LoginAs := LoginAs res;
         Roles := trimSliceString
                    (strings_Split (strings_TrimSpace (valueOf line)) ",");
         UserLogins := UserLogins res |}
    else if String.eqb (keyOf line) "Logins" then
      {| LoginAs := LoginAs res; Roles := Roles res;
         UserLogins := trimSliceString
                         (strings_Split (strings_TrimSpace (valueOf line)) ",") |}
    else res.
Proof.
  unfold statusLine, keyOf, valueOf.
  by destruct (strings_Split line ":") as [|k [|v tl]].
Qed.

Lemma statusLine_fields (res : ProxyStatus) (line : string) :
  LoginAs (statusLine res line)
  = (if String.eqb (keyOf line) "Logged in as"
     then strings_TrimSpace (valueOf line) else LoginAs res)
  /\ Roles (statusLine res line)
     = (if String.eqb (keyOf line) "Roles"
        then trimSliceString (strings_Split (strings_TrimSpace (valueOf line)) ",")
        else Roles res)
  /\ UserLogins (statusLine res line)
     = (if String.eqb (keyOf line) "Logins"
        then trimSliceString (strings_Split (strings_TrimSpace (valueOf line)) ",")
        else UserLogins res).
Proof.
  rewrite statusLine_keyed.
  destruct (String.eqb_spec (keyOf line) "Logged in as") as [-> | H1]; [done|].
  destruct (String.eqb_spec (keyOf line) "Roles") as [-> | H2]; [done|].
  by destruct (String.eqb_spec (keyOf line) "Logins").
Qed.

Lemma fold_statusLine_other (lines : list string) (res : ProxyStatus) :
  (Forall (fun l => keyOf l <> "Logged in as") lines ->
   LoginAs (fold_left statusLine lines res) = LoginAs res)
  /\ (Forall (fun l => keyOf l <> "Roles") lines ->
      Roles (fold_left statusLine lines res) = Roles res)
  /\ (Forall (fun l => keyOf l <> "Logins") lines ->
      UserLogins (fold_left statusLine lines res) = UserLogins res).
Proof.
  revert res. induction lines as [|l lines IH]; intros res; [done|].
  simpl. destruct (IH (statusLine res l)) as (I1 & I2 & I3).
  destruct (statusLine_fields res l) as (F1 & F2 & F3).
  repeat split; intros Hall; inversion Hall as [|? ? Hl Hrest]; subst;
    apply String.eqb_neq in Hl.
  - by rewrite (I1 Hrest), F1, Hl.
  - by rewrite (I2 Hrest), F2, Hl.
  - by rewrite (I3 Hrest), F3, Hl.
Qed.

(** X9: of the lines that carry one of the three keys, the last one
    decides the field, whatever comes before it and whatever lines with
    other keys come after it; a field no line names keeps its value. *)
Theorem statusLine_last_wins (before after : list string) (line : string)
    (res : ProxyStatus) :
  (keyOf line = "Logged in as" ->
   Forall (fun l => keyOf l <> "Logged in as") after ->
   LoginAs (fold_left statusLine (before ++ line :: after) res)
   = strings_TrimSpace (valueOf line))
  /\ (keyOf line = "Roles" ->
      Forall (fun l => keyOf l <> "Roles") after ->
      Roles (fold_left statusLine (before ++ line :: after) res)
      = trimSliceString (strings_Split (strings_TrimSpace (valueOf line)) ","))
  /\ (keyOf line = "Logins" ->
      Forall (fun l => keyOf l <> "Logins") after ->
      UserLogins (fold_left statusLine (before ++ line :: after) res)
      = trimSliceString (strings_Split (strings_TrimSpace (valueOf line)) ","))
  /\ (Forall (fun l => keyOf l <> "Logged in as") after ->
      LoginAs (fold_left statusLine after res) = LoginAs res)
  /\ (Forall (fun l => keyOf l <> "Roles") after ->
      Roles (fold_left statusLine after res) = Roles res)
  /\ (Forall (fun l => keyOf l <> "Logins") after ->
      UserLogins (fold_left statusLine after res) = UserLogins res).
Proof.
  rewrite fold_left_app. simpl.
  set (res1 := fold_left statusLine before res).
  destruct (fold_statusLine_other after (statusLine res1 line)) as (I1 & I2 & I3).
  destruct (statusLine_fields res1 line) as (F1 & F2 & F3).
  repeat split.
  - intros Hk Hall. by rewrite (I1 Hall), F1, Hk.
  - intros Hk Hall. by rewrite (I2 Hall), F2, Hk.
  - intros Hk Hall. by rewrite (I3 Hall), F3, Hk.
  - apply fold_statusLine_other.
  - apply fold_statusLine_other.
  - apply fold_statusLine_other.
Qed.

Lemma statusLine_last_wins_witness :
  LoginAs (fold_left statusLine
             (["Logged in as: alice"] ++ "Logged in as: bob" :: ["Roles: admin"])
             ProxyStatus_zero)
  = "bob"
  /\ Roles (fold_left statusLine
              (["Roles: dev"] ++ "Roles: admin, ops" :: ["Cluster: main"])
              ProxyStatus_zero)
     = ["admin"; "ops"]
  /\ UserLogins (fold_left statusLine ["Cluster: main"; "Roles: dev"]
                   ProxyStatus_zero)
     = [].
Proof.
  split; [|split].
  - apply (statusLine_last_wins ["Logged in as: alice"] ["Roles: admin"]
             "Logged in as: bob" ProxyStatus_zero); [reflexivity|].
    repeat constructor. vm_compute. discriminate.
  - apply (statusLine_last_wins ["Roles: dev"] ["Cluster: main"]
             "Roles: admin, ops" ProxyStatus_zero); [reflexivity|].
    repeat constructor. vm_compute. discriminate.
  - apply (statusLine_last_wins [] ["Cluster: main"; "Roles: dev"]
             "" ProxyStatus_zero).
    repeat constructor; vm_compute; discriminate.
Defined.

(** ** What the client runs *)

Lemma tshRuns_refl (t : TSH) (n : nat) (log : list Invocation) :
  tshRuns t n log log.
Proof. exists []. rewrite app_nil_r. repeat split; [simpl; lia|constructor]. Qed.

Lemma tshRuns_trans (t : TSH) (n m : nat) (a b c : list Invocation) :
  tshRuns t n a b -> tshRuns t m b c -> tshRuns t (n + m) a c.
Proof.
  intros (x & -> & Hx & Fx) (y & -> & Hy & Fy). exists (x ++ y).
  rewrite <- app_assoc, length_app. repeat split; [lia|].
  by apply Forall_app.
Qed.

Lemma tshRuns_weaken (t : TSH) (n m : nat) (a b : list Invocation) :
  (n <= m)%nat -> tshRuns t n a b -> tshRuns t m a b.
Proof. intros Hle (x & -> & Hx & Fx). exists x. repeat split; [lia|done]. Qed.

Lemma OnlyTsh_ret {A : Type} (t : TSH) (n : nat) (a : A) : OnlyTsh t n (ret a).
Proof. intros log. apply tshRuns_refl. Qed.

Lemma OnlyTsh_panic {A : Type} (t : TSH) (n : nat) : OnlyTsh t n (@panic A).
Proof. intros log. apply tshRuns_refl. Qed.

Lemma OnlyTsh_exec_Run (os : OS) (t : TSH) (args : list string) :
  OnlyTsh t 1 (exec_Run os (tshBinary t) args).
Proof.
  intros log. unfold exec_Run. simpl.
  eexists [_]. repeat split; [simpl; lia|]. by repeat constructor.
Qed.

Lemma OnlyTsh_bind {A B : Type} (t : TSH) (n k : nat) (m : M A) (f : A -> M B) :
  OnlyTsh t n m -> (forall a : A, OnlyTsh t k (f a)) -> OnlyTsh t (n + k) (bind m f).
Proof.
  intros Hm Hf log. unfold bind. specialize (Hm log).
  destruct (m log) as [[a|] log1]; simpl in *.
  - eapply tshRuns_trans; [exact Hm|apply Hf].
  - eapply tshRuns_weaken; [|exact Hm]. lia.
Qed.

Section Runs.

Variable os : OS.
Variable url_Parse : string -> url_URL + error.
Variable LookUpIPAddress : Node -> string -> string * bool.

Lemma isLogin_runs (p : Proxy) : OnlyTsh (NewTSH os p) 1 (isLogin os (NewTSH os p)).
Proof.
  unfold isLogin. change 1%nat with (1 + 0)%nat. apply OnlyTsh_bind.
  - apply OnlyTsh_exec_Run.
  - intros [res [e|]]; [apply OnlyTsh_ret|].
    destruct (negb _); [apply OnlyTsh_ret|].
    destruct (parseProfiles _) as [profileMap|]; [|apply OnlyTsh_panic].
    destruct (profileMap !! _); [|apply OnlyTsh_ret].
    intros log. apply tshRuns_refl.
Qed.

Lemma Login_runs (p : Proxy) :
  OnlyTsh (NewTSH os p) 2 (Login os url_Parse (NewTSH os p)).
Proof.
  unfold Login. change 2%nat with (1 + 1)%nat. apply OnlyTsh_bind.
  - apply isLogin_runs.
  - intros [|]; [apply OnlyTsh_ret|].
    destruct (getProxyFlags _ _); [|apply OnlyTsh_ret].
    unfold exec_RunAttached. change 1%nat with (1 + 0)%nat. apply OnlyTsh_bind.
    + apply OnlyTsh_exec_Run.
    + intros r. apply OnlyTsh_ret.
Qed.

Lemma ListNodes_runs (p : Proxy) :
  OnlyTsh (NewTSH os p) 3 (ListNodes os url_Parse (NewTSH os p)).
Proof.
  unfold ListNodes. change 3%nat with (2 + 1)%nat. apply OnlyTsh_bind.
  - apply Login_runs.
  - intros [e|]; [apply OnlyTsh_ret|].
    destruct (getProxyFlags _ _); [|apply OnlyTsh_ret].
    change 1%nat with (1 + 0)%nat. apply OnlyTsh_bind.
    + apply OnlyTsh_exec_Run.
    + intros [out [e|]]; [apply OnlyTsh_ret|].
      destruct (negb _); apply OnlyTsh_ret.
Qed.

Lemma TSH_Version_runs (p : Proxy) :
  OnlyTsh (NewTSH os p) 1 (TSH_Version os (NewTSH os p)).
Proof.
  unfold TSH_Version. change 1%nat with (1 + 0)%nat. apply OnlyTsh_bind.
  - apply OnlyTsh_exec_Run.
  - intros [res [e|]]; [apply OnlyTsh_ret|].
    destruct (negb _); [apply OnlyTsh_ret|].
    destruct (String.eqb _ _); apply OnlyTsh_ret.
Qed.

Lemma Status_runs (p : Proxy) :
  OnlyTsh (NewTSH os p) 2 (Status os url_Parse (NewTSH os p)).
Proof.
  unfold Status. change 2%nat with (1 + 1)%nat. apply OnlyTsh_bind.
  - apply TSH_Version_runs.
  - intros [cv|e]; [|apply OnlyTsh_ret].
    destruct (negb _); [apply OnlyTsh_ret|].
    destruct (getProxyFlags _ _); [|apply OnlyTsh_ret].
    change 1%nat with (1 + 0)%nat. apply OnlyTsh_bind.
    + apply OnlyTsh_exec_Run.
    + intros [res [e|]]; [apply OnlyTsh_ret|].
      destruct (negb _); [apply OnlyTsh_ret|].
      destruct (String.eqb _ _); apply OnlyTsh_ret.
Qed.

Lemma SSH_runs (p : Proxy) (username host : string) :
  OnlyTsh (NewTSH os p) 1
    (SSH os url_Parse LookUpIPAddress (NewTSH os p) username host).
Proof.
  unfold SSH. destruct (getProxyFlags _ _); [|apply OnlyTsh_ret].
  destruct (LookUpIPAddress _ _) as [ip ok].
  destruct (negb ok); [apply OnlyTsh_ret|].
  unfold exec_RunAttached. change 1%nat with (1 + 0)%nat. apply OnlyTsh_bind.
  - apply OnlyTsh_exec_Run.
  - intros r. apply OnlyTsh_ret.
Qed.

(** X10: a client made by [NewTSH] runs no program but its [tsh] binary,
    whatever the world answers and whether it returns or panics: [isLogin]
    and [Version] run it at most once, [Login] and [Status] at most twice,
    [ListNodes] at most three times, [SSH] at most once; the log only ever
    grows at its end. *)
Theorem client_runs_only_tsh (p : Proxy) (username host : string)
    (log : list Invocation) :
  tshRuns (NewTSH os p) 1 log (snd (isLogin os (NewTSH os p) log))
  /\ tshRuns (NewTSH os p) 2 log (snd (Login os url_Parse (NewTSH os p) log))
  /\ tshRuns (NewTSH os p) 3 log (snd (ListNodes os url_Parse (NewTSH os p) log))
  /\ tshRuns (NewTSH os p) 1 log (snd (TSH_Version os (NewTSH os p) log))
  /\ tshRuns (NewTSH os p) 2 log (snd (Status os url_Parse (NewTSH os p) log))
  /\ tshRuns (NewTSH os p) 1 log
       (snd (SSH os url_Parse LookUpIPAddress (NewTSH os p) username host log)).
Proof.
  repeat split.
  - apply isLogin_runs.
  - apply Login_runs.
  - apply ListNodes_runs.
  - apply TSH_Version_runs.
  - apply Status_runs.
  - apply SSH_runs.
Qed.

End Runs.

(** ** Outcomes of the operations *)

Section Outcomes.

Variable os : OS.
Variable url_Parse : string -> url_URL + error.
Variable LookUpIPAddress : Node -> string -> string * bool.

(** X11: [Login] starts the interactive login exactly when [isLogin]
    returned false and the address of the proxy parses.  With a valid
    session it returns no error and runs nothing more; with an address
    that does not parse it returns that error and runs nothing more;
    otherwise it runs [tsh login --proxy=<host>] with one more flag,
    [--auth=<connector>] when a connector is configured and
    [--user=<name>] when none is, and returns what that run returns; and
    it panics when [isLogin] does. *)
Theorem Login_outcomes (t : TSH) (log log1 : list Invocation) :
  (isLogin os t log = (Returned true, log1) ->
   Login os url_Parse t log = (Returned None, log1))
  /\ (forall e : error,
         isLogin os t log = (Returned false, log1) ->
         url_Parse (proxy_Address (proxy t)) = inr e ->
         Login os url_Parse t log = (Returned (Some e), log1))
  /\ (forall u : url_URL,
         isLogin os t log = (Returned false, log1) ->
         url_Parse (proxy_Address (proxy t)) = inl u ->
         Login os url_Parse t log
         = (Returned (snd (os_run os log1 (loginProbe t u))),
            log1 ++ [loginProbe t u])
         /\ inv_args (loginProbe t u)
            = ["login"; "--proxy=" +:+ Host u;
               if String.eqb (proxy_AuthConnector (proxy t)) ""
               then "--user=" +:+ proxy_UserName (proxy t)
               else "--auth=" +:+ proxy_AuthConnector (proxy t)])
  /\ (isLogin os t log = (Panicked, log1) ->
      Login os url_Parse t log = (Panicked, log1)).
Proof.
  repeat split.
  - intros H. unfold Login, bind. by rewrite H.
  - intros e H Hu. unfold Login, bind, getProxyFlags, cleanAddress. by rewrite H, Hu.
  - unfold Login, bind, getProxyFlags, cleanAddress, exec_RunAttached, bind, exec_Run.
    rewrite H, H0. reflexivity.
  - unfold loginProbe, authFlags. simpl.
    by destruct (String.eqb (proxy_AuthConnector (proxy t)) "").
  - intros H. unfold Login, bind. by rewrite H.
Qed.

(** X12: [ListNodes] never returns entries together with an error: when
    it returns an error the directory it returns is empty. *)
Theorem ListNodes_error_empty (t : TSH) (log log' : list Invocation)
    (node : Node) (e : error) :
  ListNodes os url_Parse t log = (Returned (node, Some e), log') ->
  Items node = [].
Proof.
  unfold ListNodes, bind, ret, exec_Run.
  destruct (Login os url_Parse t log) as [[[e1|]|] log1]; [by intros [= <- _ _]| |done].
  destruct (getProxyFlags url_Parse t) as [args|e2]; [|by intros [= <- _ _]].
  destruct (os_run os log1 _) as [out [e3|]]; [by intros [= <- _ _]|].
  destruct (negb _); [by intros [= <- _ _]|done].
Qed.

(** X13: [Status] returns a status exactly when [Version] gave a version
    the minimum supports, the address of the proxy parses, and
    [tsh status --proxy=<host>] ran without error, wrote nothing to its
    error stream and printed something; the status is then
    [parseStringToStatus] of what it printed, and the two runs are all
    that was run. *)
Theorem Status_ok_iff (t : TSH) (log log' : list Invocation) (st : ProxyStatus) :
  Status os url_Parse t log = (Returned (inl st), log') <->
  exists (cv : Version) (u : url_URL) (res : cmdResult),
    TSH_Version os t log = (Returned (inl cv), log ++ [versionProbe t])
    /\ IsSupported (minVersion t) cv = true
    /\ url_Parse (proxy_Address (proxy t)) = inl u
    /\ os_run os (log ++ [versionProbe t]) (statusFlagsProbe t u) = (res, None)
    /\ stdErr res = ""
    /\ stdOut res <> ""
    /\ st = parseStringToStatus (stdOut res)
    /\ log' = log ++ [versionProbe t; statusFlagsProbe t u].
Proof.
  pose proof (TSH_Version_log os t log) as Hlog.
  unfold Status, bind, ret, getProxyFlags, cleanAddress, exec_Run.
  destruct (TSH_Version os t log) as [[[cv|e]|] log1]; simpl in Hlog; subst log1.
  2,3: by (split; [done|intros (? & ? & ? & [=] & _)]).
  destruct (IsSupported (minVersion t) cv) eqn:Hsup; simpl.
  2: { split; [done|]. intros (? & ? & ? & [= <-] & ? & _). congruence. }
  destruct (url_Parse (proxy_Address (proxy t))) as [u|e] eqn:Hu.
  2: { split; [done|]. by intros (? & ? & ? & _ & _ & [=] & _). }
  fold (statusFlagsProbe t u).
  destruct (os_run os (log ++ [versionProbe t]) (statusFlagsProbe t u))
    as [res [e|]] eqn:Hrun.
  { split; [done|]. intros (? & ? & ? & _ & _ & [= <-] & Hr & _). congruence. }
  destruct (String.eqb_spec (stdErr res) "") as [Herr|Herr]; simpl.
  2: { split; [done|].
       intros (? & ? & ? & _ & _ & [= <-] & Hr & He & _).
       rewrite Hrun in Hr. injection Hr as <-. done. }
  destruct (String.eqb_spec (stdOut res) "") as [Hout|Hout].
  { split; [done|].
    intros (? & ? & ? & _ & _ & [= <-] & Hr & _ & Ho & _).
    rewrite Hrun in Hr. injection Hr as <-. done. }
  split.
  - intros [= <- <-]. exists cv, u, res. repeat split; try done.
    by rewrite <- app_assoc.
  - intros (? & ? & ? & [= <-] & _ & [= <-] & Hr & _ & _ & -> & ->).
    rewrite Hrun in Hr. injection Hr as <-. by rewrite <- app_assoc.
Qed.

(** X14: [SSH] does not look at the session: it runs at most [tsh ssh].
    An address that does not parse is reported first, and nothing is run;
    then a host the directory of the proxy does not know is reported,
    and nothing is run; otherwise [tsh ssh --proxy=<host>] runs with the
    flag of [authFlags], then [-l], the user name and the address found,
    and [SSH] returns what that run returns. *)
Theorem SSH_outcomes (t : TSH) (username host : string) (log : list Invocation) :
  (forall e : error,
      url_Parse (proxy_Address (proxy t)) = inr e ->
      SSH os url_Parse LookUpIPAddress t username host log = (Returned (Some e), log))
  /\ (forall (u : url_URL) (ip : string),
         url_Parse (proxy_Address (proxy t)) = inl u ->
         LookUpIPAddress (proxy_Node (proxy t)) host = (ip, false) ->
         SSH os url_Parse LookUpIPAddress t username host log
         = (Returned (Some (errors_New "couldn't find IP address")), log))
  /\ (forall (u : url_URL) (ip : string),
         url_Parse (proxy_Address (proxy t)) = inl u ->
         LookUpIPAddress (proxy_Node (proxy t)) host = (ip, true) ->
         let inv :=
           {| inv_name := tshBinary t;
              inv_args := ["ssh"; "--proxy=" +:+ Host u] ++ authFlags t
                          ++ ["-l"; username; ip] |} in
         SSH os url_Parse LookUpIPAddress t username host log
         = (Returned (snd (os_run os log inv)), log ++ [inv])).
Proof.
  repeat split.
  - intros e Hu. unfold SSH, getProxyFlags, cleanAddress. by rewrite Hu.
  - intros u ip Hu Hip. unfold SSH, getProxyFlags, cleanAddress.
    by rewrite Hu, Hip.
  - intros u ip Hu Hip inv. unfold SSH, getProxyFlags, cleanAddress.
    rewrite Hu, Hip. unfold exec_RunAttached, bind, exec_Run, ret. simpl.
    reflexivity.
Qed.

End Outcomes.

Lemma Login_outcomes_witness :
  Login worldLoggedOut url_Parse_go
    (NewTSH worldLoggedOut (proxyAt "https://proxy.example.com")) []
  = (Returned None,
     [{| inv_name := "tsh"; inv_args := ["status"] |};
      {| inv_name := "tsh";
         inv_args := ["login"; "--proxy=proxy.example.com"; "--user=alice"] |}])
  /\ Login world2024 url_Parse_go
       (NewTSH world2024 (proxyAt "https://proxy.example.com")) []
     = (Returned None, [{| inv_name := "tsh"; inv_args := ["status"] |}]).
Proof.
  split.
  - destruct (Login_outcomes worldLoggedOut url_Parse_go
                (NewTSH worldLoggedOut (proxyAt "https://proxy.example.com")) []
                [{| inv_name := "tsh"; inv_args := ["status"] |}])
      as (_ & _ & Hrun & _).
    destruct (Hrun {| Host := "proxy.example.com" |}) as [H _];
      [vm_compute; reflexivity | vm_compute; reflexivity | exact H].
  - destruct (Login_outcomes world2024 url_Parse_go
                (NewTSH world2024 (proxyAt "https://proxy.example.com")) []
                [{| inv_name := "tsh"; inv_args := ["status"] |}])
      as (Hvalid & _).
    apply Hvalid. vm_compute. reflexivity.
Defined.

Lemma ListNodes_error_empty_witness :
  ListNodes worldLsRefused url_Parse_go
    (NewTSH worldLsRefused (proxyAt "https://proxy.example.com")) []
  = (Returned ({| Items := [] |}, Some (errors_New "access denied")),
     [{| inv_name := "tsh"; inv_args := ["status"] |};
      {| inv_name := "tsh"; inv_args := ["ls"; "--proxy=proxy.example.com"] |}])
  /\ Items {| Items := [] |} = [].
Proof.
  assert (H : ListNodes worldLsRefused url_Parse_go
                (NewTSH worldLsRefused (proxyAt "https://proxy.example.com")) []
              = (Returned ({| Items := [] |}, Some (errors_New "access denied")),
                 [{| inv_name := "tsh"; inv_args := ["status"] |};
                  {| inv_name := "tsh";
                     inv_args := ["ls"; "--proxy=proxy.example.com"] |}]))
    by (vm_compute; reflexivity).
  split; [exact H|].
  exact (ListNodes_error_empty worldLsRefused url_Parse_go _ _ _ _ _ H).
Defined.

Lemma SSH_outcomes_witness :
  SSH worldLoggedOut url_Parse_go lookupFirst
    (NewTSH worldLoggedOut proxyOneNode) "root" "web-1" []
  = (Returned None,
     [{| inv_name := "/opt/tsh";
         inv_args := ["ssh"; "--proxy=proxy.example.com"; "--auth=github";
                      "-l"; "root"; "10.0.0.7"] |}])
  /\ SSH worldLoggedOut url_Parse_go lookupFirst
       (NewTSH worldLoggedOut proxyOneNode) "root" "db-9" []
     = (Returned (Some (errors_New "couldn't find IP address")), []).
Proof.
  destruct (SSH_outcomes worldLoggedOut url_Parse_go lookupFirst
              (NewTSH worldLoggedOut proxyOneNode) "root" "web-1" [])
    as (_ & _ & Hrun).
  destruct (SSH_outcomes worldLoggedOut url_Parse_go lookupFirst
              (NewTSH worldLoggedOut proxyOneNode) "root" "db-9" [])
    as (_ & Hmiss & _).
  split.
  - apply (Hrun {| Host := "proxy.example.com" |} "10.0.0.7"); reflexivity.
  - apply (Hmiss {| Host := "proxy.example.com" |} ""); reflexivity.
Defined.

(** ** The size of a directory *)

Lemma lineEntries_at_most_one (line : string) : (length (lineEntries line) <= 1)%nat.
Proof.
  rewrite lineEntries_tokens. destruct (skippedLine line); [simpl; lia|].
  destruct (nonEmptyTokens line) as [|h [|a r]]; simpl; lia.
Qed.

Lemma flat_map_at_most_one (lines : list string) :
  (length (flat_map lineEntries lines) <= length lines)%nat.
Proof.
  induction lines as [|l lines IH]; simpl; [lia|].
  rewrite length_app. pose proof (lineEntries_at_most_one l). lia.
Qed.

(** X15: a directory never has more entries than the listing has lines,
    and a listing made of header, separator and continuation lines alone
    gives the empty directory. *)
Theorem parseNodesFromString_size (nodeStr : string) :
  (length (Items (parseNodesFromString nodeStr))
   <= length (strings_Split nodeStr LF))%nat
  /\ (Forall (fun line => skippedLine line = true) (strings_Split nodeStr LF) ->
      Items (parseNodesFromString nodeStr) = []).
Proof.
  rewrite parseNodes_flat. split; [apply flat_map_at_most_one|].
  induction (strings_Split nodeStr LF) as [|l lines IH]; [done|].
  intros Hall. inversion Hall as [|? ? Hl Hrest]; subst. simpl.
  by rewrite lineEntries_tokens, Hl, (IH Hrest).
Qed.

Lemma parseNodesFromString_size_witness :
  Items (parseNodesFromString
           ("Node Name Address" +:+ String LF
              ("--------- -------" +:+ String LF " (no nodes)")))
  = [].
Proof.
  apply parseNodesFromString_size. repeat constructor.
Defined.

(** ** Sessions and the clock *)

Lemma Time_Before_earlier (now1 now2 expiry : Time) :
  Time_Before now2 now1 = false ->
  Time_Before now2 expiry = true ->
  Time_Before now1 expiry = true.
Proof.
  unfold Time_Before. intros H12 H2.
  apply orb_false_elim in H12 as [Ha Hb].
  apply Z.ltb_ge in Ha.
  apply orb_true_iff in H2 as [H2 | [H2 H3]%andb_true_iff].
  - apply Z.ltb_lt in H2. apply orb_true_iff.
    destruct (Z.eq_dec (wall_sec now1) (wall_sec now2)) as [He|Hne].
    + left. apply Z.ltb_lt. lia.
    + left. apply Z.ltb_lt. lia.
  - apply Z.eqb_eq in H2. apply Z.ltb_lt in H3. apply orb_true_iff.
    destruct (Z.eq_dec (wall_sec now1) (wall_sec now2)) as [He|Hne].
    + right. apply andb_true_iff. split; [apply Z.eqb_eq; lia|].
      apply Z.ltb_lt. rewrite He, Z.eqb_refl in Hb. simpl in Hb.
      apply Z.ltb_ge in Hb. lia.
    + left. apply Z.ltb_lt. lia.
Qed.

(** X16: the clock alone separates two runs of [isLogin] on the same
    executor: a session that [isLogin] finds valid when the clock reads
    some time is found valid when the clock reads no later a time. *)
Theorem isLogin_earlier (os1 os2 : OS) (t : TSH) (log log' : list Invocation) :
  Time_Before (os_now os2 log') (os_now os1 log') = false ->
  isLogin os2 t log = (Returned true, log') ->
  isLogin os1 t log = (Returned true, log').
Proof.
  intros Hclock (res & pm & target & Hexec & Herr & Hscan & Hlook & Hb)%isLogin_true.
  apply isLogin_true. exists res, pm, target. repeat split; try done.
  by apply (Time_Before_earlier _ (os_now os2 log')).
Qed.

Lemma isLogin_earlier_witness :
  isLogin
    (scriptedOS {| on_status := prints status2099; on_version := silent;
                   on_ls := silent; on_login := silent;
                   clock := time_Date 2001 9 9 1 46 40 0 |})
    (NewTSH world2024 (proxyAt "https://proxy.example.com")) []
  = (Returned true, [{| inv_name := "tsh"; inv_args := ["status"] |}]).
Proof.
  apply (isLogin_earlier _ world2024); vm_compute; reflexivity.
Defined.
